(** * Asset ledger chaincode: a shallow embedding and its properties

    The development embeds the two chaincode files of the repository,

    - [asset-transfer-basic/chaincode-go/chaincode/smartcontract.go]
      (module [Basic]), and
    - the second variant of the same contract, the one that carries
      [TransferGemToDistrib] (module [Part000]),

    over a model of the Fabric chaincode stub: a committed world state that
    is read by [GetState] and by range scans, and a write set that is filled
    by [PutState] and applied to the world state only when the invocation
    returns without an error. *)

From Stdlib Require Import ZArith String Ascii List Lia Permutation.
From stdpp Require Import base option list gmap strings sorting.

Local Open Scope Z_scope.

(** ** Go's [int]

    [int] is 64 bits wide on the platforms Fabric peers run on.  Values are
    kept as [Z]; every arithmetic operation of the source that can leave the
    range is followed by the two's complement wrap-around. *)

Module GoInt.

Definition min_int : Z := - 2 ^ 63.
Definition max_int : Z := 2 ^ 63 - 1.

Definition is_int (z : Z) : Prop := min_int <= z <= max_int.

Definition wrap (z : Z) : Z := (z + 2 ^ 63) mod 2 ^ 64 - 2 ^ 63.

(** [a + b] and [a - b] on [int]. *)
Definition add (a b : Z) : Z := wrap (a + b).
Definition sub (a b : Z) : Z := wrap (a - b).

End GoInt.

(** ** The record and the errors *)

(** [type Asset struct { ID; Owner; Amount }]. *)
Record Asset : Type := mkAsset { ID : string; Owner : string; Amount : Z }.

#[global] Instance Asset_eq_dec : EqDecision Asset.
Proof. solve_decision. Defined.

(** Go errors are messages.  The constructors keep the message of every
    [fmt.Errorf] of the contract; [Wrapped m e] is
    [fmt.Errorf("m: %v", e)].  The first three are raised by the stub. *)
Inductive error : Type :=
| InvalidUTF8 (s : string)          (* not a valid utf8 string *)
| DisallowedRune (s : string)       (* U+0000 or U+10FFFF in a key attribute *)
| EmptyKey                          (* key must not be an empty string *)
| Errorf (msg : string)
| Wrapped (msg : string) (e : error).

Inductive result (A : Type) : Type :=
| Ok (a : A)
| Err (e : error).
Arguments Ok {A} a.
Arguments Err {A} e.

(** The error kinds of the specification, as the messages the contract
    produces for them. *)
Definition AlreadyExists (id : string) : error :=
  Errorf ("the asset " +:+ id +:+ " already exists").
Definition NotFound (id : string) : error :=
  Errorf ("the asset " +:+ id +:+ " does not exist").
Definition InsufficientBalance (id : string) : error :=
  Errorf ("the asset " +:+ id +:+ " does not have enough amount to transfer").
Definition InvalidArgument : error :=
  Errorf "gemAmount must be positive".

(** ** Go's [unicode/utf8], as far as the stub uses it *)

Module UTF8.

Definition byte_val (c : ascii) : Z := Z.of_N (N_of_ascii c).

(** State between two bytes of one encoded rune: continuation bytes still
    missing after the next one, the bits read so far, and the accepted
    range of the next byte (the [acceptRanges] table of the package). *)
Record pending : Type :=
  Pending { more : nat; bits : Z; lo : Z; hi : Z }.

Definition within (l h b : Z) : bool := (l <=? b) && (b <=? h).

(** What a leading byte announces ([first] table of the package). *)
Definition lead (b : Z) : option pending :=
  if within 194 223 b then Some (Pending 0 (Z.land b 31) 128 191)
  else if b =? 224 then Some (Pending 1 (Z.land b 15) 160 191)
  else if b =? 237 then Some (Pending 1 (Z.land b 15) 128 159)
  else if within 225 239 b then Some (Pending 1 (Z.land b 15) 128 191)
  else if b =? 240 then Some (Pending 2 (Z.land b 7) 144 191)
  else if b =? 244 then Some (Pending 2 (Z.land b 7) 128 143)
  else if within 241 243 b then Some (Pending 2 (Z.land b 7) 128 191)
  else None.

(** The runes of a string, [None] when it is not valid UTF-8. *)
Fixpoint decode (p : option pending) (s : string) : option (list Z) :=
  match s with
  | EmptyString => match p with None => Some [] | Some _ => None end
  | String c rest =>
      let b := byte_val c in
      match p with
      | None =>
          if b <? 128 then cons b <$> decode None rest
          else match lead b with
               | Some q => decode (Some q) rest
               | None => None
               end
      | Some q =>
          if within (lo q) (hi q) b then
            let r := bits q * 64 + Z.land b 63 in
            match more q with
            | O => cons r <$> decode None rest
            | S n => decode (Some (Pending n r 128 191)) rest
            end
          else None
      end
  end.

Definition runes (s : string) : option (list Z) := decode None s.

Definition ValidString (s : string) : bool :=
  match runes s with Some _ => true | None => false end.

Definition MaxRune : Z := 1114111.

(** [string(utf8.MaxRune)], the bytes F4 8F BF BF. *)
Definition MaxRune_string : string :=
  String (ascii_of_nat 244) (String (ascii_of_nat 143)
    (String (ascii_of_nat 191) (String (ascii_of_nat 191) EmptyString))).

End UTF8.

(** ** The chaincode stub

    The functions of [shim.ChaincodeStubInterface] the contract calls.  They
    are not part of the repository; they are written after the Fabric shim:
    composite keys are [0x00 objectType 0x00 attr 0x00 ...], reads see the
    committed state only, writes go to the write set of the transaction.

    The world state holds JSON documents.  Every [PutState] of the contract
    stores [json.Marshal] of an [Asset], and [json.Unmarshal] inverts
    [json.Marshal] on the three fields, so a document is kept as the record
    it encodes; [Marshal] and [Unmarshal] stay in the model as the steps the
    source takes. *)

Module Shim.

Abbreviation document := Asset.

(** Committed world state and write set: both map keys to documents. *)
Abbreviation store := (gmap string document).

(** A chaincode function: reads the world state, extends the write set,
    returns a value or an error.  The write set is threaded through errors
    too: what was put before a [return err] stays in the stub. *)
Definition tx (A : Type) : Type := store -> store -> result A * store.

Definition ret {A} (a : A) : tx A := fun _ ws => (Ok a, ws).
Definition throw {A} (e : error) : tx A := fun _ ws => (Err e, ws).
Definition bind {A B} (m : tx A) (f : A -> tx B) : tx B :=
  fun w ws =>
    match m w ws with
    | (Ok a, ws') => f a w ws'
    | (Err e, ws') => (Err e, ws')
    end.
Definition lift {A} (r : result A) : tx A := fun _ ws => (r, ws).

(** [if err != nil { return fmt.Errorf("msg: %v", err) }] *)
Definition wrapping {A} (msg : string) (m : tx A) : tx A :=
  fun w ws =>
    match m w ws with
    | (Ok x, ws') => (Ok x, ws')
    | (Err e, ws') => (Err (Wrapped msg e), ws')
    end.

Definition minUnicodeRuneValue : Z := 0.
Definition maxUnicodeRuneValue : Z := UTF8.MaxRune.
Definition NUL : string := String (ascii_of_nat 0) EmptyString.
Definition compositeKeyNamespace : string := NUL.

Definition validateCompositeKeyAttribute (str : string) : result unit :=
  match UTF8.runes str with
  | None => Err (InvalidUTF8 str)
  | Some rs =>
      if existsb (fun r => (r =? minUnicodeRuneValue)
                           || (r =? maxUnicodeRuneValue)) rs
      then Err (DisallowedRune str)
      else Ok tt
  end.

(** The loop over the attributes of [CreateCompositeKey]. *)
Fixpoint appendAttributes (ck : string) (attributes : list string)
  : result string :=
  match attributes with
  | [] => Ok ck
  | att :: rest =>
      match validateCompositeKeyAttribute att with
      | Err e => Err e
      | Ok _ => appendAttributes (ck +:+ att +:+ NUL) rest
      end
  end.

Definition CreateCompositeKey (objectType : string)
  (attributes : list string) : result string :=
  match validateCompositeKeyAttribute objectType with
  | Err e => Err e
  | Ok _ =>
      appendAttributes (compositeKeyNamespace +:+ objectType +:+ NUL)
        attributes
  end.

(** [GetState]: the committed value, [None] for Go's [nil]. *)
Definition GetState (key : string) : tx (option document) :=
  fun w ws => (Ok (w !! key), ws).

Definition PutState (key : string) (value : document) : tx unit :=
  fun _ ws =>
    if decide (key = EmptyString) then (Err EmptyKey, ws)
    else (Ok tt, <[key := value]> ws).

(** Keys are ordered as byte strings. *)
Definition key_le (p q : string * document) : Prop :=
  String.leb (fst p) (fst q) = true.

#[global] Instance key_le_dec p q : Decision (key_le p q).
Proof. unfold key_le. apply _. Defined.

Definition in_range (startKey endKey key : string) : bool :=
  String.leb startKey key && String.ltb key endKey.

(** [GetStateByRange]: the committed entries with
    [startKey <= key < endKey], in key order. *)
Definition handleGetStateByRange (startKey endKey : string)
  : tx (list (string * document)) :=
  fun w ws =>
    (Ok (merge_sort key_le
           (List.filter (fun kv => in_range startKey endKey (fst kv))
              (map_to_list w))), ws).

Definition GetStateByPartialCompositeKey (objectType : string)
  (attributes : list string) : tx (list (string * document)) :=
  bind (lift (CreateCompositeKey objectType attributes))
    (fun startKey =>
       handleGetStateByRange startKey (startKey +:+ UTF8.MaxRune_string)).

Definition Marshal (a : Asset) : tx document := ret a.
Definition Unmarshal (d : document) : tx Asset := ret d.

(** One invocation: the write set is applied when the function returns
    without an error and dropped otherwise. *)
Definition invoke {A} (f : tx A) (w : store) : result A * store :=
  match f w ∅ with
  | (Ok a, ws) => (Ok a, ws ∪ w)
  | (Err e, _) => (Err e, w)
  end.

Definition outcome {A} (f : tx A) (w : store) : result A := fst (invoke f w).
Definition commit {A} (f : tx A) (w : store) : store := snd (invoke f w).

End Shim.

Import Shim.

Declare Scope tx_scope.
Delimit Scope tx_scope with tx.
Notation "'let*' x ':=' m 'in' f" := (bind m (fun x => f))
  (at level 10, x name, m at level 100, f at level 200) : tx_scope.

(** ** smartcontract.go *)

Module Basic.

Local Open Scope tx_scope.

(** The literal records of [InitLedger]. *)
Definition assets : list Asset :=
  [ {| ID := "exp"; Amount := 5; Owner := "distrib" |};
    {| ID := "gem"; Amount := 3000; Owner := "seo" |};
    {| ID := "gem"; Amount := 3; Owner := "team1" |};
    {| ID := "exp"; Amount := 6; Owner := "team1" |};
    {| ID := "gem"; Amount := 15; Owner := "team2" |};
    {| ID := "exp"; Amount := 30; Owner := "team2" |} ].

(** The body of the [for _, asset := range assets] loop. *)
Fixpoint putAssets (l : list Asset) : tx unit :=
  match l with
  | [] => ret tt
  | asset :: rest =>
      let* assetJSON := Marshal asset in
      let* compositeKey :=
        lift (CreateCompositeKey "Asset" [ID asset; Owner asset]) in
      let* _ := PutState compositeKey assetJSON in
      putAssets rest
  end.

Definition InitLedger : tx unit := putAssets assets.

Definition AssetExists (id owner : string) : tx bool :=
  let* compositeKey :=
    wrapping "failed to create composite key for asset"
      (lift (CreateCompositeKey "Asset" [id; owner])) in
  let* assetJSON := wrapping "failed to read asset" (GetState compositeKey) in
  ret (bool_decide (assetJSON <> None)).

Definition CreateAsset (id : string) (amount : Z) (owner : string) : tx unit :=
  let* compositeKey :=
    wrapping "failed to create composite key for asset"
      (lift (CreateCompositeKey "Asset" [id; owner])) in
  let* exists_ := AssetExists id owner in
  if (exists_ : bool) then throw (Errorf ("the asset " +:+ id +:+ " already exists"))
  else
    let asset := {| ID := id; Amount := amount; Owner := owner |} in
    let* assetJSON := Marshal asset in
    PutState compositeKey assetJSON.

Definition ReadAsset (id owner : string) : tx Asset :=
  let* compositeKey :=
    wrapping "failed to create composite key"
      (lift (CreateCompositeKey "Asset" [id; owner])) in
  let* assetJSON :=
    wrapping "failed to read from world state" (GetState compositeKey) in
  match assetJSON with
  | None => throw (Errorf ("the asset " +:+ id +:+ " does not exist"))
  | Some assetJSON => Unmarshal assetJSON
  end.

Definition UpdateAsset (id owner : string) (amount : Z) : tx unit :=
  let* exists_ := AssetExists id owner in
  if negb exists_ then throw (Errorf ("the asset " +:+ id +:+ " does not exist"))
  else
    let asset := {| ID := id; Amount := amount; Owner := owner |} in
    let* assetJSON := Marshal asset in
    PutState id assetJSON.

Definition TransferAsset (id owner newOwner : string) (amount : Z) : tx string :=
  let* asset := ReadAsset id owner in
  if Amount asset <? amount then
    throw (Errorf ("the asset " +:+ id
                   +:+ " does not have enough amount to transfer"))
  else
    let oldOwner := Owner asset in
    let asset := {| ID := ID asset; Owner := Owner asset;
                    Amount := GoInt.sub (Amount asset) amount |} in
    let newAsset := {| ID := id; Amount := amount; Owner := newOwner |} in
    let* newAssetJSON := Marshal newAsset in
    let* newCompositeKey :=
      wrapping "failed to create composite key for new asset"
        (lift (CreateCompositeKey "Asset" [id; newOwner])) in
    let* _ := PutState newCompositeKey newAssetJSON in
    let* assetJSON := Marshal asset in
    let* oldCompositeKey :=
      wrapping "failed to create composite key for old asset"
        (lift (CreateCompositeKey "Asset" [id; owner])) in
    let* _ := PutState oldCompositeKey assetJSON in
    ret oldOwner.

(** The [for resultsIterator.HasNext()] loop. *)
Fixpoint collect (it : list (string * document)) (assets : list Asset)
  : tx (list Asset) :=
  match it with
  | [] => ret assets
  | queryResponse :: rest =>
      let* asset :=
        wrapping "failed to unmarshal asset" (Unmarshal (snd queryResponse)) in
      collect rest (assets ++ [asset])
  end.

Definition GetAllAssets : tx (list Asset) :=
  let* resultsIterator :=
    wrapping "failed to get assets"
      (GetStateByPartialCompositeKey "Asset" []) in
  collect resultsIterator [].

End Basic.

(** ** The variant with the gem to exp conversion

    [TransferAsset] of this file is not embedded: it calls [ReadAsset] with
    the owner argument missing, and no claim below is about it. *)

Module Part000.

Local Open Scope tx_scope.

Definition assets : list Asset :=
  [ {| ID := "exp"; Amount := 5; Owner := "Distrib" |};
    {| ID := "gem"; Amount := 3000; Owner := "SEO" |};
    {| ID := "gem"; Amount := 1; Owner := "Team1" |};
    {| ID := "exp"; Amount := 6; Owner := "Team1" |};
    {| ID := "gem"; Amount := 15; Owner := "Team2" |};
    {| ID := "exp"; Amount := 15; Owner := "Team2" |} ].

Fixpoint putAssets (l : list Asset) : tx unit :=
  match l with
  | [] => ret tt
  | asset :: rest =>
      let* assetJSON := Marshal asset in
      let* compositeKey :=
        lift (CreateCompositeKey "Asset" [ID asset; Owner asset]) in
      let* _ := PutState compositeKey assetJSON in
      putAssets rest
  end.

Definition InitLedger : tx unit := putAssets assets.

(** Here [AssetExists] takes the key as it is. *)
Definition AssetExists (id : string) : tx bool :=
  let* assetJSON :=
    wrapping "failed to read from world state" (GetState id) in
  ret (bool_decide (assetJSON <> None)).

Definition CreateAsset (id : string) (amount : Z) (owner : string) : tx unit :=
  let* compositeKey :=
    wrapping "failed to create composite key for asset"
      (lift (CreateCompositeKey "Asset" [id; owner])) in
  let* exists_ := AssetExists compositeKey in
  if (exists_ : bool) then throw (Errorf ("the asset " +:+ id +:+ " already exists"))
  else
    let asset := {| ID := id; Amount := amount; Owner := owner |} in
    let* assetJSON := Marshal asset in
    PutState compositeKey assetJSON.

Definition ReadAsset (id owner : string) : tx Asset :=
  let* compositeKey :=
    wrapping "failed to create composite key"
      (lift (CreateCompositeKey "Asset" [id; owner])) in
  let* assetJSON :=
    wrapping "failed to read from world state" (GetState compositeKey) in
  match assetJSON with
  | None => throw (Errorf ("the asset " +:+ id +:+ " does not exist"))
  | Some assetJSON => Unmarshal assetJSON
  end.

Definition UpdateAsset (id owner : string) (amount : Z) : tx unit :=
  let* exists_ := AssetExists id in
  if negb exists_ then throw (Errorf ("the asset " +:+ id +:+ " does not exist"))
  else
    let asset := {| ID := id; Amount := amount; Owner := owner |} in
    let* assetJSON := Marshal asset in
    PutState id assetJSON.

(** [var x Asset; if json != nil { Unmarshal(json, &x) } else { x = dflt }] *)
Definition unmarshalOr (msg : string) (json : option document)
  (dflt : Asset) : tx Asset :=
  match json with
  | Some d => wrapping msg (Unmarshal d)
  | None => ret dflt
  end.

Definition TransferGemToDistrib (user : string) (gemAmount : Z) : tx unit :=
  if gemAmount <=? 0 then throw (Errorf "gemAmount must be positive")
  else
    let* userGemKey :=
      wrapping "failed to create composite key for user's Gem asset"
        (lift (CreateCompositeKey "Asset" ["gem"; user])) in
    let* userGemJSON :=
      wrapping "failed to read user's Gem asset" (GetState userGemKey) in
    match userGemJSON with
    | None => throw (Errorf "user does not own any Gem")
    | Some userGemJSON =>
        let* userGem :=
          wrapping "failed to unmarshal user's Gem asset"
            (Unmarshal userGemJSON) in
        if Amount userGem <? gemAmount then
          throw (Errorf "insufficient Gem balance")
        else
          let* distribGemKey :=
            wrapping "failed to create composite key for Distrib's Gem asset"
              (lift (CreateCompositeKey "Asset" ["gem"; "Distrib"])) in
          let* distribGemJSON :=
            wrapping "failed to read Distrib's Gem asset"
              (GetState distribGemKey) in
          let* distribGem :=
            unmarshalOr "failed to unmarshal Distrib's Gem asset"
              distribGemJSON
              {| ID := "gem"; Owner := "Distrib"; Amount := 0 |} in
          let userGem :=
            {| ID := ID userGem; Owner := Owner userGem;
               Amount := GoInt.sub (Amount userGem) gemAmount |} in
          let distribGem :=
            {| ID := ID distribGem; Owner := Owner distribGem;
               Amount := GoInt.add (Amount distribGem) gemAmount |} in
          let* userGemJSON :=
            wrapping "failed to marshal user's Gem asset" (Marshal userGem) in
          let* _ :=
            wrapping "failed to update user's Gem asset"
              (PutState userGemKey userGemJSON) in
          let* distribGemJSON :=
            wrapping "failed to marshal Distrib's Gem asset"
              (Marshal distribGem) in
          let* _ :=
            wrapping "failed to update Distrib's Gem asset"
              (PutState distribGemKey distribGemJSON) in
          let* userExpKey :=
            wrapping "failed to create composite key for user's Exp asset"
              (lift (CreateCompositeKey "Asset" ["exp"; user])) in
          let* userExpJSON :=
            wrapping "failed to read user's Exp asset" (GetState userExpKey) in
          let* userExp :=
            unmarshalOr "failed to unmarshal user's Exp asset" userExpJSON
              {| ID := "exp"; Owner := user; Amount := 0 |} in
          let userExp :=
            {| ID := ID userExp; Owner := Owner userExp;
               Amount := GoInt.add (Amount userExp) gemAmount |} in
          let* userExpJSON :=
            wrapping "failed to marshal user's Exp asset" (Marshal userExp) in
          wrapping "failed to update user's Exp asset"
            (PutState userExpKey userExpJSON)
    end.

Fixpoint collect (it : list (string * document)) (assets : list Asset)
  : tx (list Asset) :=
  match it with
  | [] => ret assets
  | queryResponse :: rest =>
      let* asset :=
        wrapping "failed to unmarshal asset" (Unmarshal (snd queryResponse)) in
      collect rest (assets ++ [asset])
  end.

Definition GetAllAssets : tx (list Asset) :=
  let* resultsIterator :=
    wrapping "failed to get assets"
      (GetStateByPartialCompositeKey "Asset" []) in
  collect resultsIterator [].

End Part000.

(** * Ledgers, supply and invariants

    The notions the claims are stated with.  None of them is in the source:
    they name ledgers the operations reach, add up balances, and spell out
    the invariant on stored amounts. *)

(** ** Ledgers used as inputs *)

(** The ledgers right after [InitLedger], one per file. *)
Definition genesis : store := commit Basic.InitLedger ∅.
Definition genesis000 : store := commit Part000.InitLedger ∅.

(** The variant's ledger once "Team2" has converted 10 gem. *)
Definition afterTeam2 : store :=
  commit (Part000.TransferGemToDistrib "Team2" 10) genesis000.

(** A ledger whose collector holds the largest [int] of gem. *)
Definition brim : store :=
  commit (Part000.CreateAsset "gem" GoInt.max_int "Distrib") ∅.

(** ** Total supply of a kind

    The records of a kind are the entries under the partial composite key
    ("Asset", kind), one per owner, as a scan with
    [GetStateByPartialCompositeKey] returns them; the supply of the kind is
    the sum of their amounts. *)

Fixpoint sum_amounts (l : list (string * document)) : Z :=
  match l with
  | [] => 0
  | kv :: rest => Amount (snd kv) + sum_amounts rest
  end.

Definition supply (kind : string) (w : store) : Z :=
  match outcome (GetStateByPartialCompositeKey "Asset" [kind]) w with
  | Ok l => sum_amounts l
  | Err _ => 0
  end.

(** The key range [GetAllAssets] scans, and the key range of one kind. *)
Definition assetStart : string := NUL +:+ "Asset" +:+ NUL.
Definition assetKey (k : string) : bool :=
  in_range assetStart (assetStart +:+ UTF8.MaxRune_string) k.
Definition kindStart (kind : string) : string := assetStart +:+ kind +:+ NUL.
Definition kindKey (kind k : string) : bool :=
  in_range (kindStart kind) (kindStart kind +:+ UTF8.MaxRune_string) k.

(** What the entry [(k, a)] adds to the supply of [kind]. *)
Definition share (kind : string) (k : string) (a : Asset) : Z :=
  match validateCompositeKeyAttribute kind with
  | Ok _ => if kindKey kind k then Amount a else 0
  | Err _ => 0
  end.

Fixpoint shares (kind : string) (l : list (string * Asset)) : Z :=
  match l with
  | [] => 0
  | kv :: rest => share kind (fst kv) (snd kv) + shares kind rest
  end.

(** ** The conversion's records *)

(** The key of the collector's gem record. *)
Definition distribGemKey : string :=
  Eval vm_compute in
    match CreateCompositeKey "Asset" ["gem"; "Distrib"] with
    | Ok k => k
    | Err _ => EmptyString
    end.

Definition debit (a : Asset) (n : Z) : Asset :=
  mkAsset (ID a) (Owner a) (GoInt.sub (Amount a) n).
Definition credit (a : Asset) (n : Z) : Asset :=
  mkAsset (ID a) (Owner a) (GoInt.add (Amount a) n).

(** ** Bytes and runes of key attributes *)

Definition banned (r : Z) : bool :=
  (r =? minUnicodeRuneValue) || (r =? maxUnicodeRuneValue).

Definition chr (n : nat) : ascii := ascii_of_nat n.

Fixpoint nul_free (s : string) : bool :=
  match s with
  | EmptyString => true
  | String c r => negb (UTF8.byte_val c =? 0) && nul_free r
  end.

(** ** Operations, reachable ledgers, non-negative balances *)

(** The operations the ledger exposes for changing balances; the
    conversion is [TransferGemToDistrib]. *)
Inductive operation : Type :=
| OpCreateAsset (id : string) (amount : Z) (owner : string)
| OpUpdateAsset (id owner : string) (amount : Z)
| OpTransferAsset (id owner newOwner : string) (amount : Z)
| OpConvertGemToExp (user : string) (gemAmount : Z).

Definition exec (o : operation) (w : store) : store :=
  match o with
  | OpCreateAsset id amount owner => commit (Basic.CreateAsset id amount owner) w
  | OpUpdateAsset id owner amount => commit (Basic.UpdateAsset id owner amount) w
  | OpTransferAsset id owner newOwner amount =>
      commit (Basic.TransferAsset id owner newOwner amount) w
  | OpConvertGemToExp user gemAmount =>
      commit (Part000.TransferGemToDistrib user gemAmount) w
  end.

(** The amount argument, a Go [int]. *)
Definition amount_of (o : operation) : Z :=
  match o with
  | OpCreateAsset _ amount _ => amount
  | OpUpdateAsset _ _ amount => amount
  | OpTransferAsset _ _ _ amount => amount
  | OpConvertGemToExp _ gemAmount => gemAmount
  end.

Inductive reachable : store -> Prop :=
| reachable_empty : reachable ∅
| reachable_exec o w :
    reachable w -> GoInt.is_int (amount_of o) -> reachable (exec o w).

Definition nonneg (w : store) : Prop :=
  forall k a, w !! k = Some a -> 0 <= Amount a.

(** Every stored amount is a non-negative [int]. *)
Definition sound (w : store) : Prop :=
  forall k a, w !! k = Some a -> 0 <= Amount a <= GoInt.max_int.

(** Balance of (id, owner), 0 when there is no record. *)
Definition balance (w : store) (id owner : string) : Z :=
  match outcome (Basic.ReadAsset id owner) w with
  | Ok a => Amount a
  | Err _ => 0
  end.

(** The arguments under which an operation keeps balances non-negative:
    a non-negative amount for create, update and transfer; for the
    conversion, credits that stay within [int]. *)
Definition guarded (o : operation) (w : store) : Prop :=
  match o with
  | OpCreateAsset _ amount _ => 0 <= amount <= GoInt.max_int
  | OpUpdateAsset _ _ amount => 0 <= amount <= GoInt.max_int
  | OpTransferAsset _ _ _ amount => 0 <= amount
  | OpConvertGemToExp user gemAmount =>
      balance w "gem" "Distrib" + gemAmount <= GoInt.max_int
      /\ balance w "exp" user + gemAmount <= GoInt.max_int
  end.

(** [sound], as a check on the entries of the ledger. *)
Definition soundb (w : store) : bool :=
  forallb (fun kv => (0 <=? Amount (snd kv))
                     && (Amount (snd kv) <=? GoInt.max_int))
    (map_to_list w).

(** The ledger after [CreateAsset("gem", -5, "bob")] on the empty store. *)
Definition overdrawn : store := exec (OpCreateAsset "gem" (-5) "bob") ∅.

(** A ledger of non-negative amounts: the collector holds the largest
    [int] of gem and "bob" holds 5. *)
Definition brimful : store :=
  exec (OpCreateAsset "gem" 5 "bob")
    (exec (OpCreateAsset "gem" GoInt.max_int "Distrib") ∅).

(** ** Notions for the further properties *)

(** Every record [ReadAsset] returns carries the kind and the owner it was
    asked for. *)
Definition keyed (w : store) : Prop :=
  forall id owner a,
    outcome (Basic.ReadAsset id owner) w = Ok a -> ID a = id /\ Owner a = owner.


(** Every key of the ledger starts with the namespace byte of composite
    keys. *)
Definition starts_nul (k : string) : bool :=
  match k with
  | String c _ => UTF8.byte_val c =? 0
  | EmptyString => false
  end.

Definition composite_only (w : store) : bool :=
  forallb (fun kv => starts_nul (fst kv)) (map_to_list w).

(** The (Kind, Owner) pairs whose records an operation may put. *)
Definition touched (o : operation) : list (string * string) :=
  match o with
  | OpCreateAsset id _ owner => [(id, owner)]
  | OpUpdateAsset _ _ _ => []
  | OpTransferAsset id owner newOwner _ => [(id, owner); (id, newOwner)]
  | OpConvertGemToExp user _ =>
      [("gem", user); ("gem", "Distrib"); ("exp", user)]
  end.

(** The key the seeding loop puts a record under, and what the loop leaves
    in the write set. *)
Definition key_of (a : Asset) : string :=
  match CreateCompositeKey "Asset" [ID a; Owner a] with
  | Ok k => k
  | Err _ => EmptyString
  end.

Definition put_all (l : list Asset) (ws : store) : store :=
  foldl (fun acc a => <[key_of a := a]> acc) ws l.

(** * Lemmas *)

Module GoIntFacts.
Import GoInt.

Lemma wrap_id z : is_int z -> wrap z = z.
Proof.
  unfold is_int, min_int, max_int, wrap. intros H.
  rewrite Z.mod_small; lia.
Qed.

Lemma wrap_is_int z : is_int (wrap z).
Proof.
  unfold is_int, min_int, max_int, wrap.
  pose proof (Z.mod_pos_bound (z + 2 ^ 63) (2 ^ 64) ltac:(lia)). lia.
Qed.

End GoIntFacts.

(** ** Composite keys *)

Section keys.

Lemma appendAttributes_head attributes : forall ck k c r,
  appendAttributes ck attributes = Ok k -> ck = String c r ->
  exists r', k = String c r'.
Proof.
  induction attributes as [|att rest IH]; intros ck k c r Hk Hck; simpl in Hk.
  - inversion Hk; subst. eauto.
  - destruct (validateCompositeKeyAttribute att); [|discriminate].
    eapply IH; [exact Hk|]. subst ck. simpl. reflexivity.
Qed.

(** A composite key starts with the namespace byte 0x00. *)
Lemma CreateCompositeKey_head objectType attributes k :
  CreateCompositeKey objectType attributes = Ok k ->
  exists r, k = String (ascii_of_nat 0) r.
Proof.
  unfold CreateCompositeKey.
  destruct (validateCompositeKeyAttribute objectType); [|discriminate].
  intros Hk. eapply appendAttributes_head; [exact Hk|]. reflexivity.
Qed.

Lemma CreateCompositeKey_nonempty objectType attributes k :
  CreateCompositeKey objectType attributes = Ok k -> k <> EmptyString.
Proof.
  intros Hk. destruct (CreateCompositeKey_head _ _ _ Hk) as [r ->]. discriminate.
Qed.

(** An attribute that passes the validation does not start with 0x00. *)
Lemma validate_head str r :
  str = String (ascii_of_nat 0) r ->
  validateCompositeKeyAttribute str <> Ok tt.
Proof.
  intros ->. unfold validateCompositeKeyAttribute, UTF8.runes. simpl.
  destruct (UTF8.decode None r); simpl; discriminate.
Qed.

Lemma CreateCompositeKey_first objectType att rest k :
  CreateCompositeKey objectType (att :: rest) = Ok k ->
  validateCompositeKeyAttribute att = Ok tt.
Proof.
  unfold CreateCompositeKey.
  destruct (validateCompositeKeyAttribute objectType); [|discriminate].
  simpl. destruct (validateCompositeKeyAttribute att) as [[]|]; [|discriminate].
  reflexivity.
Qed.

(** The composite key of [(id, owner)] is never the raw [id]. *)
Lemma CreateCompositeKey_not_raw objectType id rest k :
  CreateCompositeKey objectType (id :: rest) = Ok k -> k <> id.
Proof.
  intros Hk Heq.
  destruct (CreateCompositeKey_head _ _ _ Hk) as [r Hr].
  apply CreateCompositeKey_first in Hk.
  eapply validate_head; [|exact Hk]. subst. reflexivity.
Qed.

End keys.

(** ** Running the operations *)

Ltac tx_unfold :=
  cbv [bind wrapping lift ret throw GetState PutState Marshal Unmarshal
       Part000.unmarshalOr].

Lemma invoke_Ok {A} (f : tx A) w a ws :
  f w ∅ = (Ok a, ws) -> invoke f w = (Ok a, ws ∪ w).
Proof. unfold invoke. intros ->. reflexivity. Qed.

Lemma invoke_Err {A} (f : tx A) w e ws :
  f w ∅ = (Err e, ws) -> invoke f w = (Err e, w).
Proof. unfold invoke. intros ->. reflexivity. Qed.

Lemma put_nonempty (k : string) {B} (x y : B) :
  k <> EmptyString -> (if decide (k = EmptyString) then x else y) = y.
Proof. intros H. destruct (decide (k = EmptyString)); [contradiction|reflexivity]. Qed.

Module BasicFacts.
Import Basic.

Lemma ReadAsset_run id owner k w ws :
  CreateCompositeKey "Asset" [id; owner] = Ok k ->
  ReadAsset id owner w ws =
    match w !! k with
    | Some a => (Ok a, ws)
    | None => (Err (NotFound id), ws)
    end.
Proof.
  intros Hk. unfold ReadAsset. tx_unfold. rewrite Hk.
  destruct (w !! k); reflexivity.
Qed.

(** A record that [ReadAsset] returns sits at the composite key. *)
Lemma ReadAsset_Ok id owner w a :
  outcome (ReadAsset id owner) w = Ok a ->
  exists k, CreateCompositeKey "Asset" [id; owner] = Ok k /\ w !! k = Some a.
Proof.
  unfold outcome, invoke, ReadAsset. tx_unfold.
  destruct (CreateCompositeKey "Asset" [id; owner]) as [k|e]; [|discriminate].
  destruct (w !! k) as [d|] eqn:E; [|discriminate].
  simpl. intros [= ->]. eauto.
Qed.

Lemma AssetExists_run id owner k w ws :
  CreateCompositeKey "Asset" [id; owner] = Ok k ->
  AssetExists id owner w ws = (Ok (bool_decide (w !! k <> None)), ws).
Proof.
  intros Hk. unfold AssetExists. tx_unfold. rewrite Hk. reflexivity.
Qed.

Lemma AssetExists_Ok id owner w b :
  outcome (AssetExists id owner) w = Ok b ->
  exists k, CreateCompositeKey "Asset" [id; owner] = Ok k
            /\ b = bool_decide (w !! k <> None).
Proof.
  unfold outcome, invoke, AssetExists. tx_unfold.
  destruct (CreateCompositeKey "Asset" [id; owner]) as [k|e]; [|discriminate].
  simpl. intros [= <-]. eauto.
Qed.

Lemma CreateAsset_run id amount owner k w ws :
  CreateCompositeKey "Asset" [id; owner] = Ok k ->
  CreateAsset id amount owner w ws =
    match w !! k with
    | Some _ => (Err (AlreadyExists id), ws)
    | None => (Ok tt, <[k := mkAsset id owner amount]> ws)
    end.
Proof.
  intros Hk. unfold CreateAsset.
  unfold bind at 1. unfold wrapping, lift. rewrite Hk.
  unfold bind at 1. rewrite (AssetExists_run _ _ _ _ _ Hk).
  destruct (w !! k) as [d|].
  - rewrite bool_decide_eq_true_2 by discriminate. reflexivity.
  - rewrite bool_decide_eq_false_2 by (intros H; apply H; reflexivity).
    tx_unfold. rewrite (put_nonempty k) by (eapply CreateCompositeKey_nonempty, Hk).
    reflexivity.
Qed.

Lemma UpdateAsset_run id owner amount k w ws :
  CreateCompositeKey "Asset" [id; owner] = Ok k ->
  UpdateAsset id owner amount w ws =
    match w !! k with
    | None => (Err (NotFound id), ws)
    | Some _ =>
        if decide (id = EmptyString) then (Err EmptyKey, ws)
        else (Ok tt, <[id := mkAsset id owner amount]> ws)
    end.
Proof.
  intros Hk. unfold UpdateAsset.
  unfold bind at 1. rewrite (AssetExists_run _ _ _ _ _ Hk).
  destruct (w !! k) as [d|].
  - rewrite bool_decide_eq_true_2 by discriminate. reflexivity.
  - rewrite bool_decide_eq_false_2 by (intros H; apply H; reflexivity).
    reflexivity.
Qed.

Lemma TransferAsset_run id owner newOwner amount kO w ws :
  CreateCompositeKey "Asset" [id; owner] = Ok kO ->
  TransferAsset id owner newOwner amount w ws =
    match w !! kO with
    | None => (Err (NotFound id), ws)
    | Some a =>
        if Amount a <? amount then (Err (InsufficientBalance id), ws)
        else
          match CreateCompositeKey "Asset" [id; newOwner] with
          | Err e =>
              (Err (Wrapped "failed to create composite key for new asset" e),
               ws)
          | Ok kN =>
              (Ok (Owner a),
               <[kO := mkAsset (ID a) (Owner a)
                         (GoInt.sub (Amount a) amount)]>
                 (<[kN := mkAsset id newOwner amount]> ws))
          end
    end.
Proof.
  intros Hk. unfold TransferAsset.
  unfold bind at 1. rewrite (ReadAsset_run _ _ _ _ _ Hk).
  destruct (w !! kO) as [a|]; [|reflexivity].
  destruct (Amount a <? amount); [reflexivity|].
  tx_unfold. rewrite Hk.
  destruct (CreateCompositeKey "Asset" [id; newOwner]) as [kN|e] eqn:HkN;
    [|reflexivity].
  rewrite (put_nonempty kN) by (eapply CreateCompositeKey_nonempty, HkN).
  rewrite (put_nonempty kO) by (eapply CreateCompositeKey_nonempty, Hk).
  reflexivity.
Qed.

End BasicFacts.

(** ** Supply and insertion *)

Section supply_facts.

Variable kind : string.

Lemma sum_amounts_Permutation l l' :
  l ≡ₚ l' -> sum_amounts l = sum_amounts l'.
Proof. induction 1; simpl; lia. Qed.

Lemma shares_Permutation l l' : l ≡ₚ l' -> shares kind l = shares kind l'.
Proof. induction 1; simpl; lia. Qed.

Lemma sum_amounts_filter (l : list (string * Asset)) :
  validateCompositeKeyAttribute kind = Ok tt ->
  sum_amounts (List.filter (fun kv => kindKey kind (fst kv)) l)
  = shares kind l.
Proof.
  intros Hv. induction l as [|[k a] l IH]; simpl; [reflexivity|].
  unfold share at 1. rewrite Hv. simpl.
  destruct (kindKey kind k); simpl; lia.
Qed.

Lemma shares_invalid (l : list (string * Asset)) e :
  validateCompositeKeyAttribute kind = Err e -> shares kind l = 0.
Proof.
  intros Hv. induction l as [|[k a] l IH]; simpl; [reflexivity|].
  unfold share at 1. rewrite Hv, IH. reflexivity.
Qed.

Lemma collect_run it : forall acc w ws,
  Basic.collect it acc w ws = (Ok (acc ++ map snd it), ws).
Proof.
  induction it as [|kv it IH]; intros acc w ws; simpl.
  - tx_unfold. rewrite app_nil_r. reflexivity.
  - unfold bind at 1. tx_unfold. rewrite IH, <- app_assoc. reflexivity.
Qed.

Lemma GetAllAssets_run w ws :
  Basic.GetAllAssets w ws =
    (Ok (map snd (merge_sort key_le
                    (List.filter (fun kv => assetKey (fst kv))
                       (map_to_list w)))),
     ws).
Proof.
  unfold Basic.GetAllAssets. unfold bind at 1.
  unfold wrapping, GetStateByPartialCompositeKey, bind, lift.
  change (CreateCompositeKey "Asset" []) with (@Ok string assetStart).
  unfold handleGetStateByRange. rewrite collect_run. reflexivity.
Qed.

Lemma supply_shares w : supply kind w = shares kind (map_to_list w).
Proof.
  unfold supply, outcome, invoke, GetStateByPartialCompositeKey, bind, lift.
  unfold CreateCompositeKey.
  change (validateCompositeKeyAttribute "Asset") with (Ok tt).
  cbv beta iota. unfold appendAttributes.
  destruct (validateCompositeKeyAttribute kind) as [[]|e] eqn:Hv.
  - unfold handleGetStateByRange. cbv beta iota. unfold fst.
    rewrite <- (sum_amounts_filter _ Hv).
    apply sum_amounts_Permutation, merge_sort_Permutation.
  - symmetry. eapply shares_invalid, Hv.
Qed.

Lemma supply_empty : supply kind ∅ = 0.
Proof. rewrite supply_shares, map_to_list_empty. reflexivity. Qed.

Lemma supply_insert_None (w : store) k a :
  w !! k = None -> supply kind (<[k := a]> w) = share kind k a + supply kind w.
Proof.
  intros H. rewrite !supply_shares.
  rewrite (shares_Permutation _ _ (map_to_list_insert w k a H)). reflexivity.
Qed.

Lemma supply_insert_Some (w : store) k a old :
  w !! k = Some old ->
  supply kind (<[k := a]> w) = supply kind w - share kind k old + share kind k a.
Proof.
  intros H.
  rewrite <- (insert_delete_eq w k a).
  rewrite <- (insert_delete_id w k old H) at 2.
  rewrite !supply_insert_None by apply lookup_delete_eq. lia.
Qed.

End supply_facts.

(** ** Composite keys lie in the scanned range *)

Section key_range.

Import UTF8.

Lemma ltb_head c r c' r' :
  byte_val c < byte_val c' -> String.ltb (String c r) (String c' r') = true.
Proof.
  unfold byte_val, String.ltb. intros H. simpl. unfold Ascii.compare.
  replace (N_of_ascii c ?= N_of_ascii c')%N with Lt; [reflexivity|].
  symmetry. apply N.compare_lt_iff. lia.
Qed.

Lemma ltb_tail c r c' r' :
  byte_val c = byte_val c' ->
  String.ltb (String c r) (String c' r') = String.ltb r r'.
Proof.
  unfold byte_val, String.ltb. intros H. simpl. unfold Ascii.compare.
  replace (N_of_ascii c ?= N_of_ascii c')%N with Eq; [reflexivity|].
  symmetry. apply N.compare_eq_iff. lia.
Qed.

Lemma within_spec l h b : within l h b = true <-> l <= b <= h.
Proof. unfold within. rewrite andb_true_iff, !Z.leb_le. tauto. Qed.

(** Last byte of a rune that began F4 8F BF. *)
Lemma below_max_3 s t rs :
  decode (Some (Pending 0 17407 128 191)) s = Some rs ->
  existsb banned rs = false ->
  String.ltb (s +:+ t) (String (chr 191) EmptyString) = true.
Proof.
  intros Hd Hb. destruct s as [|c r]; simpl in Hd; [discriminate|].
  destruct (within 128 191 (byte_val c)) eqn:W; [|discriminate].
  apply within_spec in W. change (String c r +:+ t) with (String c (r +:+ t)).
  destruct (decide (byte_val c = 191)) as [E|E].
  - rewrite E in Hd. destruct (decode None r); simpl in Hd; [|discriminate].
    inversion Hd; subst. simpl in Hb. discriminate.
  - apply ltb_head. change (byte_val (chr 191)) with 191. lia.
Qed.

Lemma below_max_2 s t rs :
  decode (Some (Pending 1 271 128 191)) s = Some rs ->
  existsb banned rs = false ->
  String.ltb (s +:+ t) (String (chr 191) (String (chr 191) EmptyString)) = true.
Proof.
  intros Hd Hb. destruct s as [|c r]; simpl in Hd; [discriminate|].
  destruct (within 128 191 (byte_val c)) eqn:W; [|discriminate].
  apply within_spec in W. change (String c r +:+ t) with (String c (r +:+ t)).
  destruct (decide (byte_val c = 191)) as [E|E].
  - rewrite ltb_tail by exact E. rewrite E in Hd.
    eapply below_max_3; [exact Hd|exact Hb].
  - apply ltb_head. change (byte_val (chr 191)) with 191. lia.
Qed.

Lemma below_max_1 s t rs :
  decode (Some (Pending 2 4 128 143)) s = Some rs ->
  existsb banned rs = false ->
  String.ltb (s +:+ t)
    (String (chr 143) (String (chr 191) (String (chr 191) EmptyString))) = true.
Proof.
  intros Hd Hb. destruct s as [|c r]; simpl in Hd; [discriminate|].
  destruct (within 128 143 (byte_val c)) eqn:W; [|discriminate].
  apply within_spec in W. change (String c r +:+ t) with (String c (r +:+ t)).
  destruct (decide (byte_val c = 143)) as [E|E].
  - rewrite ltb_tail by exact E. rewrite E in Hd.
    eapply below_max_2; [exact Hd|exact Hb].
  - apply ltb_head. change (byte_val (chr 143)) with 143. lia.
Qed.

Lemma lead_spec b q :
  lead b = Some q -> b < 244 \/ (b = 244 /\ q = Pending 2 4 128 143).
Proof.
  unfold lead.
  repeat match goal with
         | |- context [if within ?l ?h b then _ else _] =>
             destruct (within l h b) eqn:?
         | |- context [if b =? ?n then _ else _] =>
             destruct (Z.eqb_spec b n)
         end;
    try discriminate;
    repeat match goal with
           | H : within _ _ _ = true |- _ => apply within_spec in H
           end;
    intros [= <-]; try (left; lia).
  right. subst b. split; reflexivity.
Qed.

(** A validated attribute, whatever follows it, sorts below U+10FFFF. *)
Lemma below_max s t :
  validateCompositeKeyAttribute s = Ok tt ->
  String.ltb (s +:+ NUL +:+ t) MaxRune_string = true.
Proof.
  unfold validateCompositeKeyAttribute, runes.
  destruct (decode None s) as [rs|] eqn:Hd; [|discriminate].
  fold banned. destruct (existsb banned rs) eqn:Hb; [discriminate|]. intros _.
  destruct s as [|c r]; [reflexivity|].
  simpl in Hd. unfold MaxRune_string. fold (chr 244).
  change (String c r +:+ NUL +:+ t) with (String c (r +:+ NUL +:+ t)).
  destruct (byte_val c <? 128) eqn:Hc.
  - apply Z.ltb_lt in Hc. apply ltb_head. change (byte_val (chr 244)) with 244. lia.
  - destruct (lead (byte_val c)) as [q|] eqn:Hq; [|discriminate].
    destruct (lead_spec _ _ Hq) as [Hlt|[E ->]].
    + apply ltb_head. change (byte_val (chr 244)) with 244. lia.
    + rewrite ltb_tail by exact E.
      eapply (below_max_1 r (NUL +:+ t)); [exact Hd|exact Hb].
Qed.

Lemma append_nil_r (s : string) : s +:+ EmptyString = s.
Proof.
  induction s as [|c s IH]; [reflexivity|].
  change (String c (s +:+ EmptyString) = String c s). f_equal. exact IH.
Qed.

Lemma append_assoc (s t u : string) : (s +:+ t) +:+ u = s +:+ (t +:+ u).
Proof.
  induction s as [|c s IH]; [reflexivity|].
  change (String c ((s +:+ t) +:+ u) = String c (s +:+ (t +:+ u))).
  f_equal. exact IH.
Qed.

Lemma appendAttributes_tail attributes : forall ck k,
  appendAttributes ck attributes = Ok k -> exists tl, k = ck +:+ tl.
Proof.
  induction attributes as [|att rest IH]; intros ck k Hk; simpl in Hk.
  - inversion Hk; subst. exists EmptyString. symmetry. apply append_nil_r.
  - destruct (validateCompositeKeyAttribute att); [|discriminate].
    destruct (IH _ _ Hk) as [tl ->]. exists (att +:+ NUL +:+ tl).
    rewrite !append_assoc. reflexivity.
Qed.

Lemma compare_append p a b :
  String.compare (p +:+ a) (p +:+ b) = String.compare a b.
Proof.
  induction p as [|c p IH]; [reflexivity|].
  change (String.compare (String c (p +:+ a)) (String c (p +:+ b))
          = String.compare a b).
  simpl. unfold Ascii.compare. rewrite N.compare_refl. exact IH.
Qed.

Lemma leb_append p s : String.leb p (p +:+ s) = true.
Proof.
  unfold String.leb.
  rewrite <- (append_nil_r p) at 1. rewrite compare_append.
  destruct s; reflexivity.
Qed.

(** Every composite key with object type "Asset" and at least one
    attribute is enumerated by [GetAllAssets]. *)
Lemma CreateCompositeKey_assetKey att rest k :
  CreateCompositeKey "Asset" (att :: rest) = Ok k -> assetKey k = true.
Proof.
  intros Hk. pose proof (CreateCompositeKey_first _ _ _ _ Hk) as Hv.
  revert Hk. unfold CreateCompositeKey.
  destruct (validateCompositeKeyAttribute "Asset"); [|discriminate].
  simpl. rewrite Hv. intros Hk.
  destruct (appendAttributes_tail _ _ _ Hk) as [tl ->].
  change (compositeKeyNamespace +:+ "Asset" +:+ NUL) with assetStart.
  rewrite !append_assoc.
  unfold assetKey, in_range. apply andb_true_iff. split.
  - apply leb_append.
  - unfold String.ltb. rewrite compare_append. apply below_max, Hv.
Qed.

End key_range.

(** ** Composite keys are injective *)

Section key_injective.

Import UTF8.

Lemma lead_lo b q : lead b = Some q -> 128 <= lo q.
Proof.
  unfold lead.
  repeat match goal with
         | |- context [if ?c then _ else _] => destruct c
         end;
    try discriminate; intros [= <-]; simpl; lia.
Qed.

Lemma decode_nul_free s : forall p rs,
  decode p s = Some rs -> existsb banned rs = false ->
  match p with None => True | Some q => 128 <= lo q end ->
  nul_free s = true.
Proof.
  induction s as [|c s IH]; intros p rs Hd Hb Hp; [reflexivity|].
  simpl in Hd. simpl. destruct p as [q|].
  - destruct (within (lo q) (hi q) (byte_val c)) eqn:W; [|discriminate].
    apply within_spec in W.
    replace (byte_val c =? 0) with false by (symmetry; apply Z.eqb_neq; lia).
    simpl. destruct (more q).
    + destruct (decode None s) as [l|] eqn:E; [|discriminate].
      simpl in Hd. injection Hd as <-. simpl in Hb.
      apply orb_false_iff in Hb as [_ Hb]. exact (IH None l E Hb I).
    + eapply (IH _ _ Hd Hb). simpl. lia.
  - destruct (byte_val c <? 128) eqn:Hc.
    + destruct (decode None s) as [l|] eqn:E; [|discriminate].
      simpl in Hd. injection Hd as <-. simpl in Hb.
      apply orb_false_iff in Hb as [Hc0 Hb].
      unfold banned in Hc0. apply orb_false_iff in Hc0 as [Hc0 _].
      unfold minUnicodeRuneValue in Hc0. rewrite Hc0. simpl.
      exact (IH None l E Hb I).
    + apply Z.ltb_ge in Hc.
      replace (byte_val c =? 0) with false by (symmetry; apply Z.eqb_neq; lia).
      simpl. destruct (lead (byte_val c)) as [q|] eqn:L; [|discriminate].
      eapply (IH _ _ Hd Hb). simpl. eapply lead_lo, L.
Qed.

(** A validated attribute holds no 0x00 byte. *)
Lemma validate_nul_free s :
  validateCompositeKeyAttribute s = Ok tt -> nul_free s = true.
Proof.
  unfold validateCompositeKeyAttribute, runes.
  destruct (decode None s) as [rs|] eqn:Hd; [|discriminate].
  fold banned. destruct (existsb banned rs) eqn:Hb; [discriminate|]. intros _.
  exact (decode_nul_free s None rs Hd Hb I).
Qed.

Lemma append_nul_inj a : forall a' t t',
  nul_free a = true -> nul_free a' = true ->
  a +:+ NUL +:+ t = a' +:+ NUL +:+ t' -> a = a' /\ t = t'.
Proof.
  induction a as [|c a IH]; intros [|c' a'] t t' Ha Ha' E.
  - change (String (ascii_of_nat 0) t = String (ascii_of_nat 0) t') in E.
    injection E as ->. auto.
  - exfalso.
    change (String (ascii_of_nat 0) t = String c' (a' +:+ NUL +:+ t')) in E.
    injection E as <- _. vm_compute in Ha'. discriminate.
  - exfalso.
    change (String c (a +:+ NUL +:+ t) = String (ascii_of_nat 0) t') in E.
    injection E as -> _. vm_compute in Ha. discriminate.
  - change (String c (a +:+ NUL +:+ t) = String c' (a' +:+ NUL +:+ t')) in E.
    injection E as -> E. simpl in Ha, Ha'.
    apply andb_true_iff in Ha as [_ Ha]. apply andb_true_iff in Ha' as [_ Ha'].
    destruct (IH _ _ _ Ha Ha' E) as [-> ->]. auto.
Qed.

Lemma CreateCompositeKey_pair id owner k :
  CreateCompositeKey "Asset" [id; owner] = Ok k ->
  validateCompositeKeyAttribute id = Ok tt
  /\ validateCompositeKeyAttribute owner = Ok tt
  /\ k = assetStart +:+ id +:+ NUL +:+ owner +:+ NUL +:+ EmptyString.
Proof.
  unfold CreateCompositeKey.
  destruct (validateCompositeKeyAttribute "Asset"); [|discriminate].
  simpl.
  destruct (validateCompositeKeyAttribute id) as [[]|]; [|discriminate].
  destruct (validateCompositeKeyAttribute owner) as [[]|]; [|discriminate].
  intros [= <-]. split; [reflexivity|]. split; [reflexivity|].
  change (compositeKeyNamespace +:+ "Asset" +:+ NUL) with assetStart.
  rewrite !append_assoc, append_nil_r. reflexivity.
Qed.

(** Distinct (Kind, Owner) pairs never share a key. *)
Lemma CreateCompositeKey_inj id owner id' owner' k :
  CreateCompositeKey "Asset" [id; owner] = Ok k ->
  CreateCompositeKey "Asset" [id'; owner'] = Ok k ->
  id = id' /\ owner = owner'.
Proof.
  intros H H'.
  apply CreateCompositeKey_pair in H as (Hi & Ho & ->).
  apply CreateCompositeKey_pair in H' as (Hi' & Ho' & E).
  apply (String.app_inj assetStart) in E.
  apply validate_nul_free in Hi, Ho, Hi', Ho'.
  apply append_nul_inj in E as [-> E]; [|assumption..].
  apply append_nul_inj in E as [-> _]; [|assumption..].
  auto.
Qed.

End key_injective.

(** ** The conversion, step by step *)

Module Part000Facts.
Import Part000.

Lemma distribGemKey_eq :
  CreateCompositeKey "Asset" ["gem"; "Distrib"] = Ok distribGemKey.
Proof. vm_compute. reflexivity. Qed.

Lemma TransferGemToDistrib_run user gemAmount kU kE w ws :
  CreateCompositeKey "Asset" ["gem"; user] = Ok kU ->
  CreateCompositeKey "Asset" ["exp"; user] = Ok kE ->
  TransferGemToDistrib user gemAmount w ws =
    if gemAmount <=? 0 then (Err InvalidArgument, ws)
    else
      match w !! kU with
      | None => (Err (Errorf "user does not own any Gem"), ws)
      | Some userGem =>
          if Amount userGem <? gemAmount
          then (Err (Errorf "insufficient Gem balance"), ws)
          else
            let distribGem :=
              default (mkAsset "gem" "Distrib" 0) (w !! distribGemKey) in
            let userExp := default (mkAsset "exp" user 0) (w !! kE) in
            (Ok tt,
             <[kE := credit userExp gemAmount]>
               (<[distribGemKey := credit distribGem gemAmount]>
                  (<[kU := debit userGem gemAmount]> ws)))
      end.
Proof.
  intros HkU HkE. unfold TransferGemToDistrib.
  destruct (gemAmount <=? 0); [reflexivity|].
  tx_unfold. rewrite HkU.
  destruct (w !! kU) as [userGem|]; [|reflexivity].
  destruct (Amount userGem <? gemAmount); [reflexivity|].
  rewrite distribGemKey_eq. cbv beta iota.
  destruct (w !! distribGemKey) as [distribGem|]; cbv beta iota;
    rewrite (put_nonempty kU) by (eapply CreateCompositeKey_nonempty, HkU);
    rewrite (put_nonempty distribGemKey) by discriminate;
    rewrite HkE; cbv beta iota;
    destruct (w !! kE) as [userExp|]; cbv beta iota;
    rewrite (put_nonempty kE) by (eapply CreateCompositeKey_nonempty, HkE);
    reflexivity.
Qed.

(** A user with a gem key has an exp key, and the two differ. *)
Lemma exp_key user kU :
  CreateCompositeKey "Asset" ["gem"; user] = Ok kU ->
  exists kE, CreateCompositeKey "Asset" ["exp"; user] = Ok kE
             /\ kE <> kU /\ kE <> distribGemKey.
Proof.
  unfold CreateCompositeKey.
  destruct (validateCompositeKeyAttribute "Asset"); [|discriminate].
  simpl.
  change (validateCompositeKeyAttribute "gem") with (Ok tt).
  change (validateCompositeKeyAttribute "exp") with (Ok tt).
  cbv iota beta.
  destruct (validateCompositeKeyAttribute user); [|discriminate].
  intros [= <-]. eexists. split; [reflexivity|].
  split; vm_compute; discriminate.
Qed.

End Part000Facts.

(** ** Committed effect of the operations *)

Lemma committed_1 (w : store) k a : <[k := a]> ∅ ∪ w = <[k := a]> w.
Proof. rewrite <- insert_union_l, (left_id_L ∅ (∪)). reflexivity. Qed.

Lemma committed_2 (w : store) k1 a1 k2 a2 :
  <[k2 := a2]> (<[k1 := a1]> ∅) ∪ w = <[k2 := a2]> (<[k1 := a1]> w).
Proof. rewrite <- !insert_union_l, (left_id_L ∅ (∪)). reflexivity. Qed.

Lemma committed_3 (w : store) k1 a1 k2 a2 k3 a3 :
  <[k3 := a3]> (<[k2 := a2]> (<[k1 := a1]> ∅)) ∪ w
  = <[k3 := a3]> (<[k2 := a2]> (<[k1 := a1]> w)).
Proof. rewrite <- !insert_union_l, (left_id_L ∅ (∪)). reflexivity. Qed.

Lemma TransferAsset_invoke id owner newOwner amount kO kN a (w : store) :
  CreateCompositeKey "Asset" [id; owner] = Ok kO ->
  CreateCompositeKey "Asset" [id; newOwner] = Ok kN ->
  w !! kO = Some a -> amount <= Amount a ->
  invoke (Basic.TransferAsset id owner newOwner amount) w
  = (Ok (Owner a),
     <[kO := mkAsset (ID a) (Owner a) (GoInt.sub (Amount a) amount)]>
       (<[kN := mkAsset id newOwner amount]> w)).
Proof.
  intros HkO HkN Hw Hle. unfold invoke.
  rewrite (BasicFacts.TransferAsset_run _ _ _ _ _ _ _ HkO), Hw, HkN.
  replace (Amount a <? amount) with false by (symmetry; apply Z.ltb_ge; lia).
  rewrite committed_2. reflexivity.
Qed.

Lemma CreateAsset_invoke id amount owner k (w : store) :
  CreateCompositeKey "Asset" [id; owner] = Ok k ->
  invoke (Basic.CreateAsset id amount owner) w
  = match w !! k with
    | Some _ => (Err (AlreadyExists id), w)
    | None => (Ok tt, <[k := mkAsset id owner amount]> w)
    end.
Proof.
  intros Hk. unfold invoke. rewrite (BasicFacts.CreateAsset_run _ _ _ _ _ _ Hk).
  destruct (w !! k); [reflexivity|]. rewrite committed_1. reflexivity.
Qed.

Lemma UpdateAsset_invoke id owner amount k (w : store) :
  CreateCompositeKey "Asset" [id; owner] = Ok k ->
  invoke (Basic.UpdateAsset id owner amount) w
  = match w !! k with
    | None => (Err (NotFound id), w)
    | Some _ =>
        if decide (id = EmptyString) then (Err EmptyKey, w)
        else (Ok tt, <[id := mkAsset id owner amount]> w)
    end.
Proof.
  intros Hk. unfold invoke. rewrite (BasicFacts.UpdateAsset_run _ _ _ _ _ _ Hk).
  destruct (w !! k); [|reflexivity].
  destruct (decide (id = EmptyString)); [reflexivity|].
  rewrite committed_1. reflexivity.
Qed.

Lemma TransferGemToDistrib_invoke user n kU kE userGem (w : store) :
  CreateCompositeKey "Asset" ["gem"; user] = Ok kU ->
  CreateCompositeKey "Asset" ["exp"; user] = Ok kE ->
  w !! kU = Some userGem -> 0 < n <= Amount userGem ->
  invoke (Part000.TransferGemToDistrib user n) w
  = (Ok tt,
     <[kE := credit
               (default (mkAsset "exp" user 0) (w !! kE)) n]>
       (<[distribGemKey :=
            credit
              (default (mkAsset "gem" "Distrib" 0)
                 (w !! distribGemKey)) n]>
          (<[kU := debit userGem n]> w))).
Proof.
  intros HkU HkE Hw Hn. unfold invoke.
  rewrite (Part000Facts.TransferGemToDistrib_run _ _ _ _ _ _ HkU HkE), Hw.
  replace (n <=? 0) with false by (symmetry; apply Z.leb_gt; lia).
  replace (Amount userGem <? n) with false by (symmetry; apply Z.ltb_ge; lia).
  cbv beta iota zeta. rewrite committed_3. reflexivity.
Qed.

Lemma Part000_ReadAsset_run id owner k w ws :
  CreateCompositeKey "Asset" [id; owner] = Ok k ->
  Part000.ReadAsset id owner w ws =
    match w !! k with
    | Some a => (Ok a, ws)
    | None => (Err (NotFound id), ws)
    end.
Proof.
  intros Hk. unfold Part000.ReadAsset. tx_unfold. rewrite Hk.
  destruct (w !! k); reflexivity.
Qed.

Lemma sound_insert (w : store) k a :
  sound w -> 0 <= Amount a <= GoInt.max_int -> sound (<[k := a]> w).
Proof.
  intros Hs Ha k' a'. rewrite lookup_insert.
  destruct (decide (k = k')); [intros [= <-]; exact Ha | apply Hs].
Qed.

Lemma soundb_sound (w : store) : soundb w = true -> sound w.
Proof.
  unfold soundb. rewrite forallb_forall. intros H k a Hk.
  specialize (H (k, a)). simpl in H.
  rewrite andb_true_iff, !Z.leb_le in H. apply H.
  apply list_elem_of_In, elem_of_map_to_list. exact Hk.
Qed.

Lemma balance_lookup (w : store) id owner k :
  CreateCompositeKey "Asset" [id; owner] = Ok k ->
  balance w id owner = match w !! k with Some a => Amount a | None => 0 end.
Proof.
  intros Hk. unfold balance, outcome, invoke.
  rewrite (BasicFacts.ReadAsset_run _ _ _ _ _ Hk).
  destruct (w !! k); reflexivity.
Qed.

Lemma CreateAsset_no_key id amount owner e (w : store) :
  CreateCompositeKey "Asset" [id; owner] = Err e ->
  commit (Basic.CreateAsset id amount owner) w = w.
Proof.
  intros He. unfold commit, invoke, Basic.CreateAsset. tx_unfold.
  rewrite He. reflexivity.
Qed.

Lemma UpdateAsset_no_key id owner amount e (w : store) :
  CreateCompositeKey "Asset" [id; owner] = Err e ->
  commit (Basic.UpdateAsset id owner amount) w = w.
Proof.
  intros He. unfold commit, invoke, Basic.UpdateAsset, Basic.AssetExists.
  tx_unfold. rewrite He. reflexivity.
Qed.

Lemma TransferAsset_no_key id owner newOwner amount e (w : store) :
  CreateCompositeKey "Asset" [id; owner] = Err e ->
  commit (Basic.TransferAsset id owner newOwner amount) w = w.
Proof.
  intros He. unfold commit, invoke, Basic.TransferAsset, Basic.ReadAsset.
  tx_unfold. rewrite He. reflexivity.
Qed.

Lemma TransferGemToDistrib_no_key user n e (w : store) :
  CreateCompositeKey "Asset" ["gem"; user] = Err e ->
  commit (Part000.TransferGemToDistrib user n) w = w.
Proof.
  intros He. unfold commit, invoke, Part000.TransferGemToDistrib.
  destruct (n <=? 0); [reflexivity|]. tx_unfold. rewrite He. reflexivity.
Qed.

(** ** What the two transfers do between distinct owners *)

Lemma supply_insert kind (w : store) k a :
  supply kind (<[k := a]> w)
  = supply kind w
    - match w !! k with Some old => share kind k old | None => 0 end
    + share kind k a.
Proof.
  destruct (w !! k) as [old|] eqn:Hw.
  - apply supply_insert_Some, Hw.
  - rewrite supply_insert_None by exact Hw. lia.
Qed.

(** The record of (id, owner) counts towards the supply of [id]. *)
Lemma share_own id owner k a :
  CreateCompositeKey "Asset" [id; owner] = Ok k -> share id k a = Amount a.
Proof.
  intros Hk. apply CreateCompositeKey_pair in Hk as (Hi & Ho & ->).
  replace (assetStart +:+ id +:+ NUL +:+ owner +:+ NUL +:+ EmptyString)
    with (kindStart id +:+ owner +:+ NUL +:+ EmptyString)
    by (unfold kindStart; rewrite !append_assoc; reflexivity).
  unfold share, kindKey, in_range. rewrite Hi, leb_append.
  unfold String.ltb. rewrite compare_append.
  pose proof (below_max owner EmptyString Ho) as Hlt.
  unfold String.ltb in Hlt.
  destruct (String.compare (owner +:+ NUL +:+ EmptyString) UTF8.MaxRune_string);
    first [discriminate | reflexivity].
Qed.

(** A gem key is no exp key and an exp key is no gem key. *)
Lemma share_gem_of_exp user k a :
  CreateCompositeKey "Asset" ["exp"; user] = Ok k -> share "gem" k a = 0.
Proof.
  intros Hk. apply CreateCompositeKey_pair in Hk as (_ & _ & ->).
  reflexivity.
Qed.

Lemma share_exp_of_gem user k a :
  CreateCompositeKey "Asset" ["gem"; user] = Ok k -> share "exp" k a = 0.
Proof.
  intros Hk. apply CreateCompositeKey_pair in Hk as (_ & _ & ->).
  reflexivity.
Qed.

(** * The claims *)

(** C1.  [TransferAsset] overwrites the destination record instead of
    adding to it.  On the ledger [InitLedger] leaves, "seo" holds 3000 gem
    and "team1" holds 3; after [TransferAsset("gem", "seo", "team1", 10)]
    "seo" holds 2990 and "team1" holds 10, not 13, and the gem supply has
    dropped from 3018 to 3015. *)
Theorem C1_TransferAsset_overwrites_destination :
  outcome (Basic.ReadAsset "gem" "seo") genesis
  = Ok (mkAsset "gem" "seo" 3000)
  /\ outcome (Basic.ReadAsset "gem" "team1") genesis
     = Ok (mkAsset "gem" "team1" 3)
  /\ outcome (Basic.TransferAsset "gem" "seo" "team1" 10) genesis = Ok "seo"
  /\ outcome (Basic.ReadAsset "gem" "seo")
       (commit (Basic.TransferAsset "gem" "seo" "team1" 10) genesis)
     = Ok (mkAsset "gem" "seo" 2990)
  /\ outcome (Basic.ReadAsset "gem" "team1")
       (commit (Basic.TransferAsset "gem" "seo" "team1" 10) genesis)
     = Ok (mkAsset "gem" "team1" 10)
  /\ supply "gem" genesis = 3018
  /\ supply "gem" (commit (Basic.TransferAsset "gem" "seo" "team1" 10) genesis)
     = 3015.
Proof. repeat split; vm_compute; reflexivity. Qed.

(** C2.  [UpdateAsset] of smartcontract.go checks existence at the
    composite key and writes at the raw id.  On the ledger [InitLedger]
    leaves, [UpdateAsset("gem", "seo", 5)] succeeds, stores the new record
    under the key "gem", which held nothing and is not the composite key,
    and the record [ReadAsset("gem", "seo")] returns still holds 3000.
    [UpdateAsset] of the other file reads and writes the raw id, so on its
    own seeded ledger it reports the existing record of ("gem", "SEO") as
    missing. *)
Theorem C2_UpdateAsset_writes_raw_id :
  outcome (Basic.AssetExists "gem" "seo") genesis = Ok true
  /\ genesis !! "gem" = None
  /\ invoke (Basic.UpdateAsset "gem" "seo" 5) genesis
     = (Ok tt, <["gem" := mkAsset "gem" "seo" 5]> genesis)
  /\ CreateCompositeKey "Asset" ["gem"; "seo"] <> Ok "gem"
  /\ outcome (Basic.ReadAsset "gem" "seo")
       (commit (Basic.UpdateAsset "gem" "seo" 5) genesis)
     = Ok (mkAsset "gem" "seo" 3000)
  /\ outcome (Part000.ReadAsset "gem" "SEO") genesis000
     = Ok (mkAsset "gem" "SEO" 3000)
  /\ invoke (Part000.UpdateAsset "gem" "SEO" 5) genesis000
     = (Err (NotFound "gem"), genesis000).
Proof.
  repeat split; try (vm_compute; reflexivity).
  vm_compute. discriminate.
Qed.

(** C3, as stated, fails: [CreateAsset] stores the amount it is given, so
    one call with the [int] -5 on the empty ledger reaches a state with a
    negative stored [Amount].  The conversion, whose amount is checked,
    reaches one too when a credit leaves the [int] range: with the
    collector at the largest [int], converting 1 gem of "bob" wraps the
    collector's balance around to the smallest [int]. *)
Lemma C3_counterexample_negative_amounts :
  reachable overdrawn
  /\ outcome (Basic.ReadAsset "gem" "bob") overdrawn
     = Ok (mkAsset "gem" "bob" (-5))
  /\ ~ nonneg overdrawn
  /\ reachable brimful
  /\ sound brimful
  /\ outcome (Basic.ReadAsset "gem" "Distrib")
       (exec (OpConvertGemToExp "bob" 1) brimful)
     = Ok (mkAsset "gem" "Distrib" GoInt.min_int)
  /\ ~ nonneg (exec (OpConvertGemToExp "bob" 1) brimful).
Proof.
  assert (Hint : forall z, GoInt.min_int <= z <= GoInt.max_int -> GoInt.is_int z)
    by (intros z Hz; exact Hz).
  repeat apply conj.
  - apply reachable_exec; [apply reachable_empty|].
    apply Hint. unfold GoInt.min_int, GoInt.max_int. simpl. lia.
  - vm_compute. reflexivity.
  - intros H.
    destruct (CreateCompositeKey "Asset" ["gem"; "bob"]) as [k|] eqn:Hk;
      [|vm_compute in Hk; discriminate].
    assert (Hw : overdrawn !! k = Some (mkAsset "gem" "bob" (-5))).
    { unfold overdrawn, exec, commit.
      rewrite (CreateAsset_invoke _ _ _ _ _ Hk), lookup_empty. simpl.
      apply lookup_insert_eq. }
    apply H in Hw. simpl in Hw. lia.
  - repeat (apply reachable_exec; [|apply Hint;
      unfold GoInt.min_int, GoInt.max_int; simpl; lia]).
    apply reachable_empty.
  - apply soundb_sound. vm_compute. reflexivity.
  - vm_compute. reflexivity.
  - intros H.
    assert (Hw : exec (OpConvertGemToExp "bob" 1) brimful !! distribGemKey
                 = Some (mkAsset "gem" "Distrib" GoInt.min_int))
      by (vm_compute; reflexivity).
    apply H in Hw. unfold GoInt.min_int in Hw. simpl in Hw. lia.
Qed.

(** C3, amended.  From a ledger in which every stored [Amount] is a
    non-negative [int], [CreateAsset], [UpdateAsset] and [TransferAsset]
    called with a non-negative [int] amount, and the conversion whenever
    its two credits stay within [int], lead to a ledger in which every
    stored [Amount] is again a non-negative [int]. *)
Theorem C3_guarded_operations_keep_nonneg (o : operation) (w : store) :
  sound w -> guarded o w -> sound (exec o w) /\ nonneg (exec o w).
Proof.
  intros Hs Hg.
  cut (sound (exec o w)).
  { intros H. split; [exact H|]. intros k a Hk. apply (H k a Hk). }
  destruct o as [id amount owner | id owner amount
                | id owner newOwner amount | user n]; simpl in *.
  all: try (
    destruct (CreateCompositeKey "Asset" [id; owner]) as [k|e] eqn:Hk;
    [| first [ rewrite (CreateAsset_no_key _ _ _ _ _ Hk)
             | rewrite (UpdateAsset_no_key _ _ _ _ _ Hk)
             | rewrite (TransferAsset_no_key _ _ _ _ _ _ Hk) ]; exact Hs ]).
  - unfold commit. rewrite (CreateAsset_invoke _ _ _ _ _ Hk).
    destruct (w !! k); simpl; [exact Hs|]. apply sound_insert; assumption.
  - unfold commit. rewrite (UpdateAsset_invoke _ _ _ _ _ Hk).
    destruct (w !! k); simpl; [|exact Hs].
    destruct (decide (id = EmptyString)); simpl; [exact Hs|].
    apply sound_insert; assumption.
  - unfold commit, invoke.
    rewrite (BasicFacts.TransferAsset_run _ _ _ _ _ _ _ Hk).
    destruct (w !! k) as [a|] eqn:Hw; [|exact Hs].
    destruct (Z.ltb_spec (Amount a) amount); [exact Hs|].
    destruct (CreateCompositeKey "Asset" [id; newOwner]) as [kN|e]; [|exact Hs].
    simpl. rewrite committed_2. pose proof (Hs _ _ Hw) as Ha.
    apply sound_insert; [apply sound_insert; [exact Hs|simpl; lia]|].
    simpl. unfold GoInt.sub. rewrite GoIntFacts.wrap_id;
      unfold GoInt.is_int, GoInt.min_int, GoInt.max_int in *; lia.
  - destruct (CreateCompositeKey "Asset" ["gem"; user]) as [kU|e] eqn:HkU;
      [|rewrite (TransferGemToDistrib_no_key _ _ _ _ HkU); exact Hs].
    destruct (Part000Facts.exp_key _ _ HkU) as (kE & HkE & _).
    destruct Hg as [HgD HgE].
    rewrite (balance_lookup _ _ _ _ Part000Facts.distribGemKey_eq) in HgD.
    rewrite (balance_lookup _ _ _ _ HkE) in HgE.
    unfold commit, invoke.
    rewrite (Part000Facts.TransferGemToDistrib_run _ _ _ _ _ _ HkU HkE).
    destruct (Z.leb_spec n 0); [exact Hs|].
    destruct (w !! kU) as [userGem|] eqn:HwU; [|exact Hs].
    destruct (Z.ltb_spec (Amount userGem) n); [exact Hs|].
    cbv beta iota zeta. rewrite committed_3. simpl snd.
    pose proof (Hs _ _ HwU) as HU.
    assert (HD : 0 <= Amount (default (mkAsset "gem" "Distrib" 0)
                                (w !! distribGemKey))
                 /\ Amount (default (mkAsset "gem" "Distrib" 0)
                              (w !! distribGemKey)) + n
                    <= GoInt.max_int).
    { destruct (w !! distribGemKey) as [d|] eqn:HwD; simpl.
      - pose proof (Hs _ _ HwD). lia.
      - simpl in HgD. unfold GoInt.max_int in *. lia. }
    assert (HE : 0 <= Amount (default (mkAsset "exp" user 0) (w !! kE))
                 /\ Amount (default (mkAsset "exp" user 0) (w !! kE)) + n
                    <= GoInt.max_int).
    { destruct (w !! kE) as [x|] eqn:HwE; simpl.
      - pose proof (Hs _ _ HwE). lia.
      - simpl in HgE. unfold GoInt.max_int in *. lia. }
    repeat apply sound_insert; try exact Hs;
      unfold credit, debit, GoInt.add, GoInt.sub;
      simpl; rewrite GoIntFacts.wrap_id;
      unfold GoInt.is_int, GoInt.min_int, GoInt.max_int in *; lia.
Qed.

Lemma C3_guarded_operations_keep_nonneg_witness :
  sound (exec (OpConvertGemToExp "Team2" 10) genesis000)
  /\ nonneg (exec (OpConvertGemToExp "Team2" 10) genesis000).
Proof.
  apply (C3_guarded_operations_keep_nonneg
           (OpConvertGemToExp "Team2" 10) genesis000).
  - apply soundb_sound. vm_compute. reflexivity.
  - assert (HD : balance genesis000 "gem" "Distrib" = 0)
      by (vm_compute; reflexivity).
    assert (HE : balance genesis000 "exp" "Team2" = 15)
      by (vm_compute; reflexivity).
    unfold guarded. rewrite HD, HE. unfold GoInt.max_int. lia.
Defined.

(** C4.  When the converting user is the collector "Distrib" itself, the
    user key and the collector key are one key and the gem is minted, not
    moved.  In the variant's ledger, once "Team2" has converted 10 gem (a
    conversion that does conserve gem: 3016 before and after), "Distrib"
    holds 10 gem; [TransferGemToDistrib("Distrib", 4)] then succeeds and
    leaves 14 at ("gem", "Distrib"), not 6, and the gem supply at 3020. *)
Theorem C4_convert_by_collector_mints_gem :
  supply "gem" genesis000 = 3016
  /\ supply "gem" afterTeam2 = 3016
  /\ outcome (Part000.ReadAsset "gem" "Distrib") afterTeam2
     = Ok (mkAsset "gem" "Distrib" 10)
  /\ outcome (Part000.TransferGemToDistrib "Distrib" 4) afterTeam2 = Ok tt
  /\ outcome (Part000.ReadAsset "gem" "Distrib")
       (commit (Part000.TransferGemToDistrib "Distrib" 4) afterTeam2)
     = Ok (mkAsset "gem" "Distrib" 14)
  /\ supply "gem" (commit (Part000.TransferGemToDistrib "Distrib" 4) afterTeam2)
     = 3020.
Proof. repeat split; vm_compute; reflexivity. Qed.

(** C5.  When the source record of [TransferAsset] holds less than the
    amount asked for, the call fails with the insufficient-balance error
    before any [PutState]: the write set comes back as it went in, and the
    committed ledger is the one before the call, so source and destination
    records are untouched. *)
Theorem C5_TransferAsset_insufficient (w : store) id A B n a :
  outcome (Basic.ReadAsset id A) w = Ok a ->
  Amount a < n ->
  invoke (Basic.TransferAsset id A B n) w = (Err (InsufficientBalance id), w)
  /\ (forall ws, Basic.TransferAsset id A B n w ws
                 = (Err (InsufficientBalance id), ws))
  /\ outcome (Basic.ReadAsset id A)
       (commit (Basic.TransferAsset id A B n) w) = Ok a
  /\ outcome (Basic.ReadAsset id B)
       (commit (Basic.TransferAsset id A B n) w)
     = outcome (Basic.ReadAsset id B) w.
Proof.
  intros Hread Hlt.
  destruct (BasicFacts.ReadAsset_Ok _ _ _ _ Hread) as (k & Hk & Hw).
  assert (Hrun : forall ws,
             Basic.TransferAsset id A B n w ws
             = (Err (InsufficientBalance id), ws)).
  { intros ws. rewrite (BasicFacts.TransferAsset_run _ _ _ _ _ _ _ Hk), Hw.
    replace (Amount a <? n) with true by (symmetry; apply Z.ltb_lt; lia).
    reflexivity. }
  assert (Hinv : invoke (Basic.TransferAsset id A B n) w
                 = (Err (InsufficientBalance id), w))
    by (eapply invoke_Err, Hrun).
  unfold commit. rewrite Hinv. simpl. auto.
Qed.

Lemma C5_TransferAsset_insufficient_witness :
  invoke (Basic.TransferAsset "gem" "team1" "team2" 5) genesis
  = (Err (InsufficientBalance "gem"), genesis).
Proof.
  apply (C5_TransferAsset_insufficient genesis "gem" "team1" "team2" 5
           (mkAsset "gem" "team1" 3)).
  - vm_compute. reflexivity.
  - simpl. lia.
Defined.

(** C6.  [TransferGemToDistrib] (the conversion of gem to exp) with a
    non-positive amount fails with "gemAmount must be positive" whatever the
    user and the world state are, the write set comes back as it went in,
    and the ledger is left as it was: the check precedes every access to
    the stub. *)
Theorem C6_convert_nonpositive (w : store) user n :
  n <= 0 ->
  invoke (Part000.TransferGemToDistrib user n) w = (Err InvalidArgument, w)
  /\ (forall w' ws,
         Part000.TransferGemToDistrib user n w' ws = (Err InvalidArgument, ws)).
Proof.
  intros Hn.
  assert (Hrun : forall w' ws,
             Part000.TransferGemToDistrib user n w' ws
             = (Err InvalidArgument, ws)).
  { intros w' ws. unfold Part000.TransferGemToDistrib.
    replace (n <=? 0) with true by (symmetry; apply Z.leb_le; lia).
    reflexivity. }
  split; [eapply invoke_Err, Hrun | exact Hrun].
Qed.

Lemma C6_convert_nonpositive_witness :
  invoke (Part000.TransferGemToDistrib "Team2" 0) genesis000
  = (Err InvalidArgument, genesis000).
Proof.
  apply (C6_convert_nonpositive genesis000 "Team2" 0). lia.
Defined.

(** C7.  On a ledger where [AssetExists] reports no record for
    (Kind, Owner), [CreateAsset] succeeds and stores the record; a second
    [CreateAsset] for the same pair fails with "already exists" and leaves
    the ledger, hence the first record, as it was. *)
Theorem C7_CreateAsset_twice (w : store) id owner a1 a2 :
  outcome (Basic.AssetExists id owner) w = Ok false ->
  outcome (Basic.CreateAsset id a1 owner) w = Ok tt
  /\ invoke (Basic.CreateAsset id a2 owner)
       (commit (Basic.CreateAsset id a1 owner) w)
     = (Err (AlreadyExists id), commit (Basic.CreateAsset id a1 owner) w)
  /\ outcome (Basic.ReadAsset id owner)
       (commit (Basic.CreateAsset id a1 owner) w)
     = Ok (mkAsset id owner a1).
Proof.
  intros Hex.
  destruct (BasicFacts.AssetExists_Ok _ _ _ _ Hex) as (k & Hk & Hb).
  assert (Hw : w !! k = None).
  { destruct (w !! k) eqn:E; [|reflexivity].
    rewrite bool_decide_eq_true_2 in Hb by discriminate. discriminate. }
  unfold outcome, commit.
  rewrite (CreateAsset_invoke _ a1 _ _ _ Hk), Hw. simpl.
  rewrite (CreateAsset_invoke _ a2 _ _ _ Hk), lookup_insert_eq.
  split; [reflexivity|]. split; [reflexivity|].
  unfold invoke. rewrite (BasicFacts.ReadAsset_run _ _ _ _ _ Hk), lookup_insert_eq.
  reflexivity.
Qed.

Lemma C7_CreateAsset_twice_witness :
  outcome (Basic.CreateAsset "gem" 7 "team3") genesis = Ok tt
  /\ invoke (Basic.CreateAsset "gem" 9 "team3")
       (commit (Basic.CreateAsset "gem" 7 "team3") genesis)
     = (Err (AlreadyExists "gem"),
        commit (Basic.CreateAsset "gem" 7 "team3") genesis)
  /\ outcome (Basic.ReadAsset "gem" "team3")
       (commit (Basic.CreateAsset "gem" 7 "team3") genesis)
     = Ok (mkAsset "gem" "team3" 7).
Proof.
  apply (C7_CreateAsset_twice genesis "gem" "team3" 7 9).
  vm_compute. reflexivity.
Defined.

(** C8.  From the empty store, [InitLedger] succeeds and [GetAllAssets]
    then returns the six seeded records, in key order: a permutation of the
    literal list [InitLedger] writes, every field as seeded. *)
Theorem C8_InitLedger_GetAllAssets :
  outcome Basic.InitLedger ∅ = Ok tt
  /\ outcome Basic.GetAllAssets (commit Basic.InitLedger ∅)
     = Ok [ mkAsset "exp" "distrib" 5; mkAsset "exp" "team1" 6;
            mkAsset "exp" "team2" 30; mkAsset "gem" "seo" 3000;
            mkAsset "gem" "team1" 3; mkAsset "gem" "team2" 15 ]
  /\ [ mkAsset "exp" "distrib" 5; mkAsset "exp" "team1" 6;
       mkAsset "exp" "team2" 30; mkAsset "gem" "seo" 3000;
       mkAsset "gem" "team1" 3; mkAsset "gem" "team2" 15 ] ≡ₚ Basic.assets.
Proof.
  split; [vm_compute; reflexivity|]. split; [vm_compute; reflexivity|].
  unfold Basic.assets.
  apply (bool_decide_unpack _). vm_compute. exact I.
Qed.

(** C9.  A transfer from an owner to the same owner, of an amount between 1
    and the balance [m], succeeds and leaves [m - n] at (Kind, A): both
    [PutState] calls hit the one composite key, the debited record is
    written last, and the supply of the kind drops by [n]. *)
Theorem C9_self_transfer (w : store) id A n a :
  outcome (Basic.ReadAsset id A) w = Ok a ->
  0 < n <= Amount a ->
  GoInt.is_int (Amount a) ->
  outcome (Basic.TransferAsset id A A n) w = Ok (Owner a)
  /\ outcome (Basic.ReadAsset id A)
       (commit (Basic.TransferAsset id A A n) w)
     = Ok (mkAsset (ID a) (Owner a) (Amount a - n))
  /\ supply id (commit (Basic.TransferAsset id A A n) w) = supply id w - n.
Proof.
  intros Hread Hn Hm.
  destruct (BasicFacts.ReadAsset_Ok _ _ _ _ Hread) as (k & Hk & Hw).
  unfold outcome, commit.
  rewrite (TransferAsset_invoke _ _ _ _ _ _ _ _ Hk Hk Hw) by lia.
  simpl. rewrite insert_insert_eq.
  assert (Hsub : GoInt.sub (Amount a) n = Amount a - n).
  { apply GoIntFacts.wrap_id.
    unfold GoInt.is_int, GoInt.min_int, GoInt.max_int in *. lia. }
  rewrite Hsub. split; [reflexivity|]. split.
  - unfold invoke.
    rewrite (BasicFacts.ReadAsset_run _ _ _ _ _ Hk), lookup_insert_eq.
    reflexivity.
  - rewrite (supply_insert_Some _ _ _ _ _ Hw).
    rewrite (share_own id A k a Hk).
    rewrite (share_own id A k (mkAsset (ID a) (Owner a) (Amount a - n)) Hk).
    simpl. lia.
Qed.

Lemma C9_self_transfer_witness :
  outcome (Basic.TransferAsset "gem" "team2" "team2" 4) genesis = Ok "team2"
  /\ outcome (Basic.ReadAsset "gem" "team2")
       (commit (Basic.TransferAsset "gem" "team2" "team2" 4) genesis)
     = Ok (mkAsset "gem" "team2" (15 - 4))
  /\ supply "gem" (commit (Basic.TransferAsset "gem" "team2" "team2" 4) genesis)
     = supply "gem" genesis - 4.
Proof.
  apply (C9_self_transfer genesis "gem" "team2" 4 (mkAsset "gem" "team2" 15)).
  - vm_compute. reflexivity.
  - simpl. lia.
  - simpl. unfold GoInt.is_int, GoInt.min_int, GoInt.max_int. lia.
Defined.

(** C10, as stated, fails at the top of the [int] range: with
    [m = max_int] and [GemAmount = 1] the credit wraps around, the record
    ends at [min_int], not at [m + 1], and the gem supply does not grow
    by 1. *)
Lemma C10_counterexample_overflow :
  outcome (Part000.ReadAsset "gem" "Distrib") brim
  = Ok (mkAsset "gem" "Distrib" GoInt.max_int)
  /\ 0 < 1 <= GoInt.max_int
  /\ outcome (Part000.TransferGemToDistrib "Distrib" 1) brim = Ok tt
  /\ outcome (Part000.ReadAsset "gem" "Distrib")
       (commit (Part000.TransferGemToDistrib "Distrib" 1) brim)
     = Ok (mkAsset "gem" "Distrib" GoInt.min_int)
  /\ outcome (Part000.ReadAsset "gem" "Distrib")
       (commit (Part000.TransferGemToDistrib "Distrib" 1) brim)
     <> Ok (mkAsset "gem" "Distrib" (GoInt.max_int + 1))
  /\ supply "gem" (commit (Part000.TransferGemToDistrib "Distrib" 1) brim)
     <> supply "gem" brim + 1.
Proof.
  repeat split; try (vm_compute; reflexivity); vm_compute; discriminate.
Qed.

(** C10, amended.  When the user is the collector "Distrib", holds
    [m >= GemAmount > 0] of gem, and [m + GemAmount] does not exceed the
    largest [int], the conversion succeeds; user key and collector key are
    one key, the credit computed from the balance read before the debit is
    written last, the record ends at [m + GemAmount], and the gem supply
    grows by [GemAmount]. *)
Theorem C10_convert_by_collector (w : store) n a :
  outcome (Part000.ReadAsset "gem" "Distrib") w = Ok a ->
  0 < n <= Amount a ->
  Amount a + n <= GoInt.max_int ->
  outcome (Part000.TransferGemToDistrib "Distrib" n) w = Ok tt
  /\ outcome (Part000.ReadAsset "gem" "Distrib")
       (commit (Part000.TransferGemToDistrib "Distrib" n) w)
     = Ok (mkAsset (ID a) (Owner a) (Amount a + n))
  /\ supply "gem" (commit (Part000.TransferGemToDistrib "Distrib" n) w)
     = supply "gem" w + n.
Proof.
  intros Hread Hn Hmax.
  pose proof Part000Facts.distribGemKey_eq as HkD.
  destruct (Part000Facts.exp_key _ _ HkD) as (kE & HkE & Hne & _).
  assert (Hw : w !! distribGemKey = Some a).
  { revert Hread. unfold outcome, invoke.
    rewrite (Part000_ReadAsset_run "gem" "Distrib" distribGemKey _ _ HkD).
    destruct (w !! distribGemKey); simpl; congruence. }
  unfold outcome, commit.
  rewrite (TransferGemToDistrib_invoke _ _ _ _ _ _ HkD HkE Hw) by lia.
  rewrite Hw. simpl. rewrite insert_insert_eq.
  assert (Hcredit : credit a n = mkAsset (ID a) (Owner a) (Amount a + n)).
  { unfold credit, GoInt.add. rewrite GoIntFacts.wrap_id; [reflexivity|].
    unfold GoInt.is_int, GoInt.min_int, GoInt.max_int in *. lia. }
  rewrite Hcredit. split; [reflexivity|]. split.
  - unfold invoke.
    rewrite (Part000_ReadAsset_run "gem" "Distrib" distribGemKey _ _ HkD).
    rewrite lookup_insert_ne by exact Hne. rewrite lookup_insert_eq.
    reflexivity.
  - rewrite !supply_insert.
    rewrite (lookup_insert_ne _ distribGemKey kE) by congruence. rewrite Hw.
    rewrite (share_own "gem" "Distrib" distribGemKey a HkD).
    rewrite (share_own "gem" "Distrib" distribGemKey
               (mkAsset (ID a) (Owner a) (Amount a + n)) HkD).
    rewrite (share_gem_of_exp "Distrib" kE _ HkE).
    destruct (w !! kE) as [e|];
      [rewrite (share_gem_of_exp "Distrib" kE e HkE)|]; simpl; lia.
Qed.

Lemma C10_convert_by_collector_witness :
  outcome (Part000.TransferGemToDistrib "Distrib" 4) afterTeam2 = Ok tt
  /\ outcome (Part000.ReadAsset "gem" "Distrib")
       (commit (Part000.TransferGemToDistrib "Distrib" 4) afterTeam2)
     = Ok (mkAsset "gem" "Distrib" (10 + 4))
  /\ supply "gem" (commit (Part000.TransferGemToDistrib "Distrib" 4) afterTeam2)
     = supply "gem" afterTeam2 + 4.
Proof.
  apply (C10_convert_by_collector afterTeam2 4 (mkAsset "gem" "Distrib" 10)).
  - vm_compute. reflexivity.
  - simpl. lia.
  - simpl. unfold GoInt.max_int. lia.
Defined.

(** * Further properties of the contract *)

(** ** The order of keys and the range scan *)

Lemma leb_trans (s1 : string) : forall s2 s3,
  String.leb s1 s2 = true -> String.leb s2 s3 = true -> String.leb s1 s3 = true.
Proof.
  unfold String.leb.
  induction s1 as [|c1 s1 IH]; intros [|c2 s2] [|c3 s3]; simpl;
    try reflexivity; try discriminate.
  unfold Ascii.compare.
  destruct (N.compare_spec (N_of_ascii c1) (N_of_ascii c2)) as [E12|L12|G12];
    destruct (N.compare_spec (N_of_ascii c2) (N_of_ascii c3)) as [E23|L23|G23];
    try discriminate; intros H12 H23.
  - rewrite E12, E23, N.compare_refl. exact (IH _ _ H12 H23).
  - rewrite E12. rewrite (proj2 (N.compare_lt_iff _ _) L23). reflexivity.
  - rewrite <- E23. rewrite (proj2 (N.compare_lt_iff _ _) L12). reflexivity.
  - rewrite (proj2 (N.compare_lt_iff _ _) (N.lt_trans _ _ _ L12 L23)).
    reflexivity.
Qed.

#[local] Instance key_le_trans : Transitive key_le.
Proof. intros x y z. unfold key_le. apply leb_trans. Qed.

#[local] Instance key_le_total : Total key_le.
Proof. intros x y. unfold key_le. apply String.leb_total. Qed.

Lemma elem_of_scan (P : string -> bool) (w : store) k v :
  (k, v) ∈ merge_sort key_le
             (List.filter (fun kv => P (fst kv)) (map_to_list w))
  <-> w !! k = Some v /\ P k = true.
Proof.
  rewrite merge_sort_Permutation, list_elem_of_In, filter_In.
  rewrite <- list_elem_of_In, elem_of_map_to_list. reflexivity.
Qed.

Lemma NoDup_List_filter {A} (f : A -> bool) (l : list A) :
  NoDup l -> NoDup (List.filter f l).
Proof.
  induction 1 as [|x l Hx Hl IH]; simpl; [constructor|].
  destruct (f x); [|exact IH]. constructor; [|exact IH].
  rewrite list_elem_of_In, filter_In, <- list_elem_of_In. tauto.
Qed.

(** A scan depends on the entries inside its range only. *)
Lemma scan_ext (P : string -> bool) (w1 w2 : store) :
  (forall k, P k = true -> w1 !! k = w2 !! k) ->
  merge_sort key_le (List.filter (fun kv => P (fst kv)) (map_to_list w1))
  = merge_sort key_le (List.filter (fun kv => P (fst kv)) (map_to_list w2)).
Proof.
  intros Hext. apply (Sorted_unique_strong key_le).
  - intros [k1 v1] [k2 v2] H1 H2 L12 L21.
    apply elem_of_scan in H1 as [H1 P1]. apply elem_of_scan in H2 as [H2 P2].
    unfold key_le in L12, L21. simpl in L12, L21.
    pose proof (String.leb_antisym _ _ L12 L21) as <-.
    rewrite (Hext _ P1) in H1. congruence.
  - apply Sorted_merge_sort, _.
  - apply Sorted_merge_sort, _.
  - rewrite !merge_sort_Permutation. apply NoDup_Permutation.
    + apply NoDup_List_filter, NoDup_map_to_list.
    + apply NoDup_List_filter, NoDup_map_to_list.
    + intros [k v]. rewrite !list_elem_of_In, !filter_In, <- !list_elem_of_In.
      rewrite !elem_of_map_to_list. simpl. split; intros [H HP]; split;
        try exact HP; [rewrite <- (Hext _ HP) | rewrite (Hext _ HP)]; exact H.
Qed.

(** ** Queries *)

Lemma ReadAsset_no_key id owner e w ws :
  CreateCompositeKey "Asset" [id; owner] = Err e ->
  Basic.ReadAsset id owner w ws
  = (Err (Wrapped "failed to create composite key" e), ws).
Proof. intros He. unfold Basic.ReadAsset. tx_unfold. rewrite He. reflexivity. Qed.

Lemma AssetExists_no_key id owner e w ws :
  CreateCompositeKey "Asset" [id; owner] = Err e ->
  Basic.AssetExists id owner w ws
  = (Err (Wrapped "failed to create composite key for asset" e), ws).
Proof. intros He. unfold Basic.AssetExists. tx_unfold. rewrite He. reflexivity. Qed.

Lemma ReadAsset_outcome id owner k (w : store) :
  CreateCompositeKey "Asset" [id; owner] = Ok k ->
  outcome (Basic.ReadAsset id owner) w
  = match w !! k with Some a => Ok a | None => Err (NotFound id) end.
Proof.
  intros Hk. unfold outcome, invoke.
  rewrite (BasicFacts.ReadAsset_run _ _ _ _ _ Hk).
  destruct (w !! k); reflexivity.
Qed.

Lemma ReadAsset_outcome_no_key id owner e (w : store) :
  CreateCompositeKey "Asset" [id; owner] = Err e ->
  outcome (Basic.ReadAsset id owner) w
  = Err (Wrapped "failed to create composite key" e).
Proof.
  intros Hk. unfold outcome, invoke.
  rewrite (ReadAsset_no_key _ _ _ _ _ Hk). reflexivity.
Qed.

Lemma GetAllAssets_outcome (w : store) :
  outcome Basic.GetAllAssets w
  = Ok (map snd (merge_sort key_le
                   (List.filter (fun kv => assetKey (fst kv))
                      (map_to_list w)))).
Proof. unfold outcome, invoke. rewrite GetAllAssets_run. reflexivity. Qed.

Lemma Permutation_List_filter {A} (f : A -> bool) (l l' : list A) :
  l ≡ₚ l' -> List.filter f l ≡ₚ List.filter f l'.
Proof.
  induction 1 as [|x l l' _ IH|x y l|l l' l'' _ IH1 _ IH2]; simpl.
  - constructor.
  - destruct (f x); [constructor|]; exact IH.
  - destruct (f x), (f y); try reflexivity. constructor.
  - etransitivity; eassumption.
Qed.

(** X1.  [ReadAsset], [AssetExists] and [GetAllAssets] put nothing: on
    every ledger and for every argument the write set comes back as it went
    in, so an invocation of any of them commits the ledger unchanged. *)
Theorem X1_queries_write_nothing (w ws : store) id owner :
  snd (Basic.ReadAsset id owner w ws) = ws
  /\ snd (Basic.AssetExists id owner w ws) = ws
  /\ snd (Basic.GetAllAssets w ws) = ws
  /\ commit (Basic.ReadAsset id owner) w = w
  /\ commit (Basic.AssetExists id owner) w = w
  /\ commit Basic.GetAllAssets w = w.
Proof.
  assert (HR : forall ws', snd (Basic.ReadAsset id owner w ws') = ws').
  { intros ws'.
    destruct (CreateCompositeKey "Asset" [id; owner]) as [k|e] eqn:Hk.
    - rewrite (BasicFacts.ReadAsset_run _ _ _ _ _ Hk).
      destruct (w !! k); reflexivity.
    - rewrite (ReadAsset_no_key _ _ _ _ _ Hk). reflexivity. }
  assert (HE : forall ws', snd (Basic.AssetExists id owner w ws') = ws').
  { intros ws'.
    destruct (CreateCompositeKey "Asset" [id; owner]) as [k|e] eqn:Hk.
    - rewrite (BasicFacts.AssetExists_run _ _ _ _ _ Hk). reflexivity.
    - rewrite (AssetExists_no_key _ _ _ _ _ Hk). reflexivity. }
  assert (HG : forall ws', snd (Basic.GetAllAssets w ws') = ws')
    by (intros ws'; rewrite GetAllAssets_run; reflexivity).
  assert (Hc : forall A (f : tx A),
             (forall ws', snd (f w ws') = ws') -> commit f w = w).
  { intros A f Hf. unfold commit, invoke. specialize (Hf ∅).
    destruct (f w ∅) as [[a|e] ws']; simpl in *; [|reflexivity].
    subst ws'. apply (left_id_L ∅ (∪)). }
  repeat split; auto.
Qed.

(** X2.  [AssetExists] and [ReadAsset] agree on every ledger: the first
    answers true exactly when the second returns a record, and false
    exactly when the second fails with "does not exist". *)
Theorem X2_AssetExists_ReadAsset_agree (w : store) id owner :
  (outcome (Basic.AssetExists id owner) w = Ok true
   <-> exists a, outcome (Basic.ReadAsset id owner) w = Ok a)
  /\ (outcome (Basic.AssetExists id owner) w = Ok false
      <-> outcome (Basic.ReadAsset id owner) w = Err (NotFound id)).
Proof.
  unfold outcome, invoke.
  destruct (CreateCompositeKey "Asset" [id; owner]) as [k|e] eqn:Hk.
  - rewrite (BasicFacts.AssetExists_run _ _ _ _ _ Hk),
            (BasicFacts.ReadAsset_run _ _ _ _ _ Hk).
    destruct (w !! k) as [a|].
    + rewrite bool_decide_eq_true_2 by discriminate. simpl.
      split; split; try discriminate; eauto.
    + rewrite bool_decide_eq_false_2 by (intros H; apply H; reflexivity).
      simpl. split; split; try discriminate; try reflexivity.
      intros [a Ha]. discriminate.
  - rewrite (AssetExists_no_key _ _ _ _ _ Hk), (ReadAsset_no_key _ _ _ _ _ Hk).
    simpl. split; split; try discriminate. intros [a Ha]. discriminate.
Qed.



(** X4.  After a [CreateAsset] for a pair that had no record,
    [GetAllAssets] returns the records it returned before and the new one,
    and nothing else. *)
Theorem X4_GetAllAssets_after_CreateAsset (w : store) id amount owner :
  outcome (Basic.AssetExists id owner) w = Ok false ->
  exists l l',
    outcome Basic.GetAllAssets w = Ok l
    /\ outcome Basic.GetAllAssets (commit (Basic.CreateAsset id amount owner) w)
       = Ok l'
    /\ l' ≡ₚ mkAsset id owner amount :: l.
Proof.
  intros Hex.
  destruct (BasicFacts.AssetExists_Ok _ _ _ _ Hex) as (k & Hk & Hb).
  assert (Hw : w !! k = None).
  { destruct (w !! k) eqn:E; [|reflexivity].
    rewrite bool_decide_eq_true_2 in Hb by discriminate. discriminate. }
  unfold commit. rewrite (CreateAsset_invoke _ _ _ _ _ Hk), Hw. simpl.
  rewrite !GetAllAssets_outcome. eexists. eexists.
  split; [reflexivity|]. split; [reflexivity|].
  change (mkAsset id owner amount) with (snd (k, mkAsset id owner amount)).
  rewrite <- map_cons. apply Permutation_map.
  rewrite !merge_sort_Permutation.
  rewrite (Permutation_List_filter _ _ _
             (map_to_list_insert w k (mkAsset id owner amount) Hw)).
  simpl. rewrite (CreateCompositeKey_assetKey _ _ _ Hk). reflexivity.
Qed.

Lemma X4_GetAllAssets_after_CreateAsset_witness :
  exists l l',
    outcome Basic.GetAllAssets genesis = Ok l
    /\ outcome Basic.GetAllAssets
         (commit (Basic.CreateAsset "gem" 7 "team3") genesis) = Ok l'
    /\ l' ≡ₚ mkAsset "gem" "team3" 7 :: l.
Proof.
  apply (X4_GetAllAssets_after_CreateAsset genesis "gem" 7 "team3").
  vm_compute. reflexivity.
Defined.

(** ** Raw keys and composite keys *)

Lemma starts_nul_spec k :
  starts_nul k = true <-> exists r, k = String (ascii_of_nat 0) r.
Proof.
  split.
  - destruct k as [|c r]; simpl; [discriminate|]. intros H.
    apply Z.eqb_eq in H. exists r. f_equal.
    rewrite <- (ascii_N_embedding c). unfold UTF8.byte_val in H.
    replace (N_of_ascii c) with 0%N by lia. reflexivity.
  - intros [r ->]. reflexivity.
Qed.

Lemma CreateCompositeKey_starts_nul objectType attributes k :
  CreateCompositeKey objectType attributes = Ok k -> starts_nul k = true.
Proof. intros Hk. apply starts_nul_spec. eapply CreateCompositeKey_head, Hk. Qed.

(** A Kind that forms a key is itself no composite key. *)
Lemma validated_not_nul objectType id rest k :
  CreateCompositeKey objectType (id :: rest) = Ok k -> starts_nul id = false.
Proof.
  intros Hk. apply CreateCompositeKey_first in Hk.
  destruct (starts_nul id) eqn:E; [|reflexivity].
  apply starts_nul_spec in E as [r E]. destruct (validate_head _ _ E Hk).
Qed.

Lemma assetKey_starts_nul k : assetKey k = true -> starts_nul k = true.
Proof.
  unfold assetKey, in_range. intros H. apply andb_true_iff in H as [H1 H2].
  destruct k as [|c r]; [vm_compute in H1; discriminate|].
  assert (E : exists t, assetStart +:+ UTF8.MaxRune_string
                        = String (ascii_of_nat 0) t)
    by (eexists; reflexivity).
  destruct E as [t E]. rewrite E in H2. unfold String.ltb in H2.
  simpl in H2. unfold Ascii.compare in H2.
  simpl. apply Z.eqb_eq. unfold UTF8.byte_val.
  destruct (N.compare_spec (N_of_ascii c) (N_of_ascii (ascii_of_nat 0)))
    as [E0|L0|G0]; try discriminate.
  - rewrite E0. reflexivity.
  - change (N_of_ascii (ascii_of_nat 0)) with 0%N in L0. lia.
Qed.

Lemma composite_only_spec (w : store) :
  composite_only w = true
  <-> (forall k a, w !! k = Some a -> starts_nul k = true).
Proof.
  unfold composite_only. rewrite forallb_forall. split.
  - intros H k a Hk. apply (H (k, a)).
    apply list_elem_of_In, elem_of_map_to_list, Hk.
  - intros H [k a] Hin. apply (H k a).
    apply elem_of_map_to_list, list_elem_of_In, Hin.
Qed.

(** What a call of [UpdateAsset] commits: nothing, or one record under
    the raw id, which is no composite key. *)
Lemma UpdateAsset_commit (w : store) id owner amount :
  commit (Basic.UpdateAsset id owner amount) w = w
  \/ (commit (Basic.UpdateAsset id owner amount) w
      = <[id := mkAsset id owner amount]> w
      /\ starts_nul id = false).
Proof.
  destruct (CreateCompositeKey "Asset" [id; owner]) as [k|e] eqn:Hk.
  - unfold commit. rewrite (UpdateAsset_invoke _ _ _ _ _ Hk).
    destruct (w !! k); [|left; reflexivity].
    destruct (decide (id = EmptyString)); [left; reflexivity|].
    right. split; [reflexivity|]. eapply validated_not_nul, Hk.
  - left. eapply UpdateAsset_no_key, Hk.
Qed.

Lemma insert_raw_invisible (w : store) id v :
  starts_nul id = false ->
  forall k, starts_nul k = true -> <[id := v]> w !! k = w !! k.
Proof.
  intros Hid k Hk. apply lookup_insert_ne. intros ->. congruence.
Qed.

Lemma ReadAsset_ext (w1 w2 : store) id owner :
  (forall k, starts_nul k = true -> w1 !! k = w2 !! k) ->
  outcome (Basic.ReadAsset id owner) w1 = outcome (Basic.ReadAsset id owner) w2
  /\ outcome (Basic.AssetExists id owner) w1
     = outcome (Basic.AssetExists id owner) w2.
Proof.
  intros Hext. unfold outcome, invoke.
  destruct (CreateCompositeKey "Asset" [id; owner]) as [k|e] eqn:Hk.
  - rewrite !(BasicFacts.ReadAsset_run _ _ _ _ _ Hk),
            !(BasicFacts.AssetExists_run _ _ _ _ _ Hk).
    rewrite (Hext k (CreateCompositeKey_starts_nul _ _ _ Hk)).
    destruct (w2 !! k); split; reflexivity.
  - rewrite !(ReadAsset_no_key _ _ _ _ _ Hk), !(AssetExists_no_key _ _ _ _ _ Hk).
    split; reflexivity.
Qed.

Lemma UpdateAsset_keeps_reads (w : store) id owner amount id' owner' :
  outcome (Basic.ReadAsset id' owner')
    (commit (Basic.UpdateAsset id owner amount) w)
  = outcome (Basic.ReadAsset id' owner') w
  /\ outcome (Basic.AssetExists id' owner')
       (commit (Basic.UpdateAsset id owner amount) w)
     = outcome (Basic.AssetExists id' owner') w.
Proof.
  destruct (UpdateAsset_commit w id owner amount) as [->|[-> Hid]];
    [split; reflexivity|].
  apply ReadAsset_ext, insert_raw_invisible, Hid.
Qed.

(** X5.  Whatever [UpdateAsset] of smartcontract.go is called with and
    whether it succeeds or fails, [ReadAsset], [AssetExists] and
    [GetAllAssets] answer afterwards what they answered before: its one
    [PutState] goes to the raw id, a key no query reads. *)
Theorem X5_UpdateAsset_invisible (w : store) id owner amount id' owner' :
  outcome (Basic.ReadAsset id' owner')
    (commit (Basic.UpdateAsset id owner amount) w)
  = outcome (Basic.ReadAsset id' owner') w
  /\ outcome (Basic.AssetExists id' owner')
       (commit (Basic.UpdateAsset id owner amount) w)
     = outcome (Basic.AssetExists id' owner') w
  /\ outcome Basic.GetAllAssets (commit (Basic.UpdateAsset id owner amount) w)
     = outcome Basic.GetAllAssets w.
Proof.
  destruct (UpdateAsset_keeps_reads w id owner amount id' owner') as [HR HE].
  split; [exact HR|]. split; [exact HE|].
  destruct (UpdateAsset_commit w id owner amount) as [->|[-> Hid]];
    [reflexivity|].
  rewrite !GetAllAssets_outcome. f_equal. f_equal. apply scan_ext.
  intros k Hk. apply insert_raw_invisible; [exact Hid|].
  apply assetKey_starts_nul, Hk.
Qed.

(** X6.  [UpdateAsset] with the empty id never succeeds: when the record
    of ("", owner) exists the stub refuses the empty key, otherwise the
    record is reported missing; the ledger is left as it was. *)
Theorem X6_UpdateAsset_empty_id (w : store) owner amount :
  exists e, invoke (Basic.UpdateAsset EmptyString owner amount) w = (Err e, w).
Proof.
  destruct (CreateCompositeKey "Asset" [EmptyString; owner]) as [k|e] eqn:Hk.
  - rewrite (UpdateAsset_invoke _ _ _ _ _ Hk).
    destruct (w !! k); [|eauto].
    destruct (decide (EmptyString = EmptyString)); [eauto|contradiction].
  - unfold invoke, Basic.UpdateAsset, Basic.AssetExists. tx_unfold.
    rewrite Hk. eauto.
Qed.

(** X7.  In the variant, on a ledger that holds composite keys only,
    [UpdateAsset] called with the kind and owner of a record [ReadAsset]
    returns fails with "does not exist" and changes nothing: it looks the
    record up under the raw id. *)
Theorem X7_variant_UpdateAsset_misses_records (w : store) id owner amount a :
  composite_only w = true ->
  outcome (Part000.ReadAsset id owner) w = Ok a ->
  invoke (Part000.UpdateAsset id owner amount) w = (Err (NotFound id), w).
Proof.
  intros Hc Hread. apply BasicFacts.ReadAsset_Ok in Hread as (k & Hk & _).
  assert (Hid : w !! id = None).
  { destruct (w !! id) as [x|] eqn:E; [|reflexivity].
    pose proof (proj1 (composite_only_spec w) Hc id x E) as H1.
    rewrite (validated_not_nul _ _ _ _ Hk) in H1. discriminate. }
  unfold invoke, Part000.UpdateAsset, Part000.AssetExists. tx_unfold.
  rewrite Hid. rewrite bool_decide_eq_false_2 by (intros H; apply H; reflexivity).
  reflexivity.
Qed.

Lemma X7_variant_UpdateAsset_misses_records_witness :
  invoke (Part000.UpdateAsset "gem" "Team2" 99) afterTeam2
  = (Err (NotFound "gem"), afterTeam2).
Proof.
  apply (X7_variant_UpdateAsset_misses_records afterTeam2 "gem" "Team2" 99
           (mkAsset "gem" "Team2" 5)).
  - vm_compute. reflexivity.
  - vm_compute. reflexivity.
Defined.

(** ** Outcomes of the operations *)

Lemma messages_differ id : InsufficientBalance id <> NotFound id.
Proof.
  unfold InsufficientBalance, NotFound. intros [= H].
  change (id +:+ " does not have enough amount to transfer"
          = id +:+ " does not exist") in H.
  apply (String.app_inj id) in H. discriminate.
Qed.

Lemma Part000_CreateAsset_eq id amount owner w ws :
  Part000.CreateAsset id amount owner w ws
  = Basic.CreateAsset id amount owner w ws.
Proof.
  unfold Part000.CreateAsset, Basic.CreateAsset, Part000.AssetExists,
    Basic.AssetExists. tx_unfold.
  destruct (CreateCompositeKey "Asset" [id; owner]) as [k|e]; reflexivity.
Qed.

Lemma TransferAsset_source_error id owner newOwner amount e (w : store) :
  outcome (Basic.ReadAsset id owner) w = Err e ->
  forall ws, Basic.TransferAsset id owner newOwner amount w ws = (Err e, ws).
Proof.
  unfold outcome, invoke. intros He ws.
  destruct (CreateCompositeKey "Asset" [id; owner]) as [k|e'] eqn:Hk.
  - rewrite (BasicFacts.TransferAsset_run _ _ _ _ _ _ _ Hk).
    rewrite (BasicFacts.ReadAsset_run _ _ _ _ _ Hk) in He.
    destruct (w !! k); simpl in He; [discriminate|congruence].
  - rewrite (ReadAsset_no_key _ _ _ _ _ Hk) in He. simpl in He.
    injection He as <-.
    unfold Basic.TransferAsset. unfold bind at 1.
    rewrite (ReadAsset_no_key _ _ _ _ _ Hk). reflexivity.
Qed.

(** X8.  Which way [TransferAsset] ends, on every ledger: it succeeds
    exactly when the source record exists, holds at least the amount, and
    the new owner forms a key; it fails with "does not have enough amount"
    exactly when the source record holds less; and every error of reading
    the source is passed on as it is, with the ledger unchanged. *)
Theorem X8_TransferAsset_outcomes (w : store) id owner newOwner amount :
  ((exists o, outcome (Basic.TransferAsset id owner newOwner amount) w = Ok o)
   <-> exists a, outcome (Basic.ReadAsset id owner) w = Ok a
                 /\ amount <= Amount a
                 /\ exists b, outcome (Basic.AssetExists id newOwner) w = Ok b)
  /\ (outcome (Basic.TransferAsset id owner newOwner amount) w
      = Err (InsufficientBalance id)
      <-> exists a, outcome (Basic.ReadAsset id owner) w = Ok a
                    /\ Amount a < amount)
  /\ (forall e, outcome (Basic.ReadAsset id owner) w = Err e ->
                invoke (Basic.TransferAsset id owner newOwner amount) w
                = (Err e, w)).
Proof.
  split; [|split].
  3: { intros e He. eapply invoke_Err.
       apply (TransferAsset_source_error _ _ _ _ _ _ He). }
  all: destruct (CreateCompositeKey "Asset" [id; owner]) as [k|e0] eqn:Hk.
  all: unfold outcome, invoke.
  all: try rewrite (BasicFacts.TransferAsset_run _ _ _ _ _ _ _ Hk),
                   (BasicFacts.ReadAsset_run _ _ _ _ _ Hk).
  all: try (unfold Basic.TransferAsset; unfold bind at 1;
            rewrite !(ReadAsset_no_key _ _ _ _ _ Hk); simpl;
            split; [intros H | intros (a & Ha & _)];
            first [discriminate | destruct H; discriminate]).
  - destruct (w !! k) as [a|] eqn:Hw.
    + destruct (Z.ltb_spec (Amount a) amount) as [Hlt|Hge]; simpl.
      * split; [intros [o Ho]; discriminate|].
        intros (a' & [= <-] & Hle & _). lia.
      * destruct (CreateCompositeKey "Asset" [id; newOwner]) as [kN|eN] eqn:HkN.
        -- rewrite (BasicFacts.AssetExists_run _ _ _ _ _ HkN). simpl.
           split; eauto 6.
        -- rewrite (AssetExists_no_key _ _ _ _ _ HkN). simpl.
           split; [intros [o Ho]; discriminate|].
           intros (a' & _ & _ & b & Hb). discriminate.
    + simpl. split; [intros [o Ho]; discriminate|].
      intros (a & Ha & _). discriminate.
  - destruct (w !! k) as [a|] eqn:Hw.
    + destruct (Z.ltb_spec (Amount a) amount) as [Hlt|Hge]; simpl.
      * split; eauto.
      * destruct (CreateCompositeKey "Asset" [id; newOwner]); simpl;
          (split; [discriminate|]); intros (a' & [= <-] & Hlt); lia.
    + simpl. split.
      * intros H. exfalso. apply (messages_differ id).
        change (@Err string (NotFound id) = Err (InsufficientBalance id)) in H.
        congruence.
      * intros (a & Ha & _). discriminate.
Qed.

Ltac settle :=
  simpl; repeat split; intros;
  repeat match goal with
         | H : exists _, _ |- _ => destruct H
         | H : _ /\ _ |- _ => destruct H
         end;
  simplify_eq; try lia; eauto;
  try (eexists; split; [reflexivity|lia]).

Lemma TransferGemToDistrib_key_error user n e w ws :
  0 < n ->
  CreateCompositeKey "Asset" ["gem"; user] = Err e ->
  Part000.TransferGemToDistrib user n w ws
  = (Err (Wrapped "failed to create composite key for user's Gem asset" e), ws).
Proof.
  intros Hn He. unfold Part000.TransferGemToDistrib.
  replace (n <=? 0) with false by (symmetry; apply Z.leb_gt; lia).
  tx_unfold. rewrite He. reflexivity.
Qed.

(** X9.  Which way the conversion ends, on every ledger: it succeeds
    exactly when the amount is positive and the user's gem record holds at
    least that much; it fails with "gemAmount must be positive" exactly
    when the amount is not positive, with "insufficient Gem balance"
    exactly when the amount is positive and the record holds less, and with
    "user does not own any Gem" exactly when the amount is positive and the
    user has no gem record. *)
Theorem X9_convert_outcomes (w : store) user n :
  (outcome (Part000.TransferGemToDistrib user n) w = Ok tt
   <-> 0 < n /\ exists a, outcome (Part000.ReadAsset "gem" user) w = Ok a
                          /\ n <= Amount a)
  /\ (outcome (Part000.TransferGemToDistrib user n) w = Err InvalidArgument
      <-> n <= 0)
  /\ (outcome (Part000.TransferGemToDistrib user n) w
      = Err (Errorf "insufficient Gem balance")
      <-> 0 < n /\ exists a, outcome (Part000.ReadAsset "gem" user) w = Ok a
                             /\ Amount a < n)
  /\ (outcome (Part000.TransferGemToDistrib user n) w
      = Err (Errorf "user does not own any Gem")
      <-> 0 < n /\ outcome (Part000.ReadAsset "gem" user) w
                   = Err (NotFound "gem")).
Proof.
  destruct (Z.leb_spec n 0) as [Hn|Hn].
  { unfold outcome, invoke, Part000.TransferGemToDistrib.
    replace (n <=? 0) with true by (symmetry; apply Z.leb_le; lia).
    unfold InvalidArgument. settle. }
  unfold outcome, invoke.
  destruct (CreateCompositeKey "Asset" ["gem"; user]) as [kU|e] eqn:HkU.
  - destruct (Part000Facts.exp_key _ _ HkU) as (kE & HkE & _).
    rewrite (Part000Facts.TransferGemToDistrib_run _ _ _ _ _ _ HkU HkE).
    rewrite (Part000_ReadAsset_run _ _ _ _ _ HkU).
    replace (n <=? 0) with false by (symmetry; apply Z.leb_gt; lia).
    destruct (w !! kU) as [a|].
    + destruct (Z.ltb_spec (Amount a) n); unfold InvalidArgument; settle.
    + unfold InvalidArgument. settle.
  - rewrite (TransferGemToDistrib_key_error _ _ _ _ _ Hn HkU).
    rewrite (ReadAsset_no_key "gem" user e w ∅ HkU).
    unfold InvalidArgument. settle.
Qed.

(** X10.  Which way [CreateAsset] and [UpdateAsset] end, on every ledger:
    [CreateAsset] succeeds exactly when [AssetExists] answers false and
    fails with "already exists" exactly when it answers true; [UpdateAsset]
    succeeds exactly when [AssetExists] answers true and the id is not
    empty, and fails with "does not exist" exactly when it answers false. *)
Theorem X10_CreateAsset_UpdateAsset_outcomes (w : store) id owner amount :
  (outcome (Basic.CreateAsset id amount owner) w = Ok tt
   <-> outcome (Basic.AssetExists id owner) w = Ok false)
  /\ (outcome (Basic.CreateAsset id amount owner) w = Err (AlreadyExists id)
      <-> outcome (Basic.AssetExists id owner) w = Ok true)
  /\ (outcome (Basic.UpdateAsset id owner amount) w = Ok tt
      <-> outcome (Basic.AssetExists id owner) w = Ok true
          /\ id <> EmptyString)
  /\ (outcome (Basic.UpdateAsset id owner amount) w = Err (NotFound id)
      <-> outcome (Basic.AssetExists id owner) w = Ok false).
Proof.
  unfold outcome.
  destruct (CreateCompositeKey "Asset" [id; owner]) as [k|e] eqn:Hk.
  - rewrite (CreateAsset_invoke _ _ _ _ _ Hk), (UpdateAsset_invoke _ _ _ _ _ Hk).
    unfold invoke. rewrite (BasicFacts.AssetExists_run _ _ _ _ _ Hk).
    destruct (w !! k) as [a|].
    + rewrite bool_decide_eq_true_2 by discriminate.
      destruct (decide (id = EmptyString)); settle.
    + rewrite bool_decide_eq_false_2 by (intros H; apply H; reflexivity).
      settle.
  - unfold invoke, Basic.CreateAsset, Basic.UpdateAsset, Basic.AssetExists.
    tx_unfold. rewrite Hk. settle.
Qed.


(** ** What an operation leaves alone *)

Lemma ReadAsset_insert_other (w : store) id owner k v id' owner' :
  CreateCompositeKey "Asset" [id; owner] = Ok k ->
  (id', owner') <> (id, owner) ->
  outcome (Basic.ReadAsset id' owner') (<[k := v]> w)
  = outcome (Basic.ReadAsset id' owner') w.
Proof.
  intros Hk Hne.
  destruct (CreateCompositeKey "Asset" [id'; owner']) as [k'|e] eqn:Hk'.
  - rewrite !(ReadAsset_outcome _ _ _ _ Hk').
    rewrite lookup_insert_ne; [reflexivity|]. intros ->.
    destruct (CreateCompositeKey_inj _ _ _ _ _ Hk Hk') as [-> ->]. auto.
  - rewrite !(ReadAsset_outcome_no_key _ _ _ _ Hk'). reflexivity.
Qed.

(** X12.  An operation changes no record but those of the pairs it names:
    [CreateAsset] its own pair, [TransferAsset] the source and the
    destination, the conversion the user's gem, the collector's gem and the
    user's exp, [UpdateAsset] none; [ReadAsset] of any other (Kind, Owner)
    answers after the operation what it answered before. *)
Theorem X12_operations_leave_other_records (o : operation) (w : store)
  id' owner' :
  ~ In (id', owner') (touched o) ->
  outcome (Basic.ReadAsset id' owner') (exec o w)
  = outcome (Basic.ReadAsset id' owner') w.
Proof.
  intros Hout.
  destruct o as [id amount owner | id owner amount
                | id owner newOwner amount | user n]; simpl in *.
  - destruct (CreateCompositeKey "Asset" [id; owner]) as [k|e] eqn:Hk;
      [|rewrite (CreateAsset_no_key _ _ _ _ _ Hk); reflexivity].
    unfold commit. rewrite (CreateAsset_invoke _ _ _ _ _ Hk).
    destruct (w !! k); [reflexivity|]. simpl.
    apply (ReadAsset_insert_other _ _ _ _ _ _ _ Hk). intros E. auto.
  - apply UpdateAsset_keeps_reads.
  - destruct (CreateCompositeKey "Asset" [id; owner]) as [k|e] eqn:Hk;
      [|rewrite (TransferAsset_no_key _ _ _ _ _ _ Hk); reflexivity].
    unfold commit, invoke.
    rewrite (BasicFacts.TransferAsset_run _ _ _ _ _ _ _ Hk).
    destruct (w !! k) as [a|]; [|reflexivity].
    destruct (Amount a <? amount); [reflexivity|].
    destruct (CreateCompositeKey "Asset" [id; newOwner]) as [kN|e] eqn:HkN;
      [|reflexivity].
    simpl. rewrite committed_2.
    rewrite (ReadAsset_insert_other _ _ _ _ _ _ _ Hk) by (intros E; auto).
    apply (ReadAsset_insert_other _ _ _ _ _ _ _ HkN). intros E. auto.
  - destruct (CreateCompositeKey "Asset" ["gem"; user]) as [kU|e] eqn:HkU;
      [|rewrite (TransferGemToDistrib_no_key _ _ _ _ HkU); reflexivity].
    destruct (Part000Facts.exp_key _ _ HkU) as (kE & HkE & _).
    unfold commit, invoke.
    rewrite (Part000Facts.TransferGemToDistrib_run _ _ _ _ _ _ HkU HkE).
    destruct (n <=? 0); [reflexivity|].
    destruct (w !! kU) as [a|]; [|reflexivity].
    destruct (Amount a <? n); [reflexivity|].
    cbv beta iota zeta. rewrite committed_3. simpl snd.
    rewrite (ReadAsset_insert_other _ _ _ _ _ _ _ HkE) by (intros E; auto).
    rewrite (ReadAsset_insert_other _ "gem" "Distrib" distribGemKey _ _ _
               Part000Facts.distribGemKey_eq) by (intros E; auto).
    apply (ReadAsset_insert_other _ _ _ _ _ _ _ HkU). intros E. auto.
Qed.

Lemma X12_operations_leave_other_records_witness :
  outcome (Basic.ReadAsset "gem" "team2")
    (exec (OpTransferAsset "gem" "seo" "team1" 10) genesis)
  = outcome (Basic.ReadAsset "gem" "team2") genesis.
Proof.
  apply (X12_operations_leave_other_records
           (OpTransferAsset "gem" "seo" "team1" 10) genesis "gem" "team2").
  simpl. intros [H|[H|[]]]; discriminate.
Defined.

(** ** Supply under create and transfer *)

Lemma absent_lookup (w : store) id owner :
  outcome (Basic.AssetExists id owner) w = Ok false ->
  exists k, CreateCompositeKey "Asset" [id; owner] = Ok k /\ w !! k = None.
Proof.
  intros Hex.
  destruct (BasicFacts.AssetExists_Ok _ _ _ _ Hex) as (k & Hk & Hb).
  exists k. split; [exact Hk|].
  destruct (w !! k) eqn:E; [|reflexivity].
  rewrite bool_decide_eq_true_2 in Hb by discriminate. discriminate.
Qed.

(** X13.  [CreateAsset] for a pair without a record adds the amount to the
    supply of the kind. *)
Theorem X13_CreateAsset_adds_to_supply (w : store) id amount owner :
  outcome (Basic.AssetExists id owner) w = Ok false ->
  supply id (commit (Basic.CreateAsset id amount owner) w)
  = supply id w + amount.
Proof.
  intros Hex. destruct (absent_lookup _ _ _ Hex) as (k & Hk & Hw).
  unfold commit. rewrite (CreateAsset_invoke _ _ _ _ _ Hk), Hw. simpl.
  rewrite supply_insert, Hw.
  rewrite (share_own id owner k (mkAsset id owner amount) Hk). simpl. lia.
Qed.

Lemma X13_CreateAsset_adds_to_supply_witness :
  supply "gem" (commit (Basic.CreateAsset "gem" 7 "team3") genesis)
  = supply "gem" genesis + 7.
Proof.
  apply (X13_CreateAsset_adds_to_supply genesis "gem" 7 "team3").
  vm_compute. reflexivity.
Defined.

(** X14.  [TransferAsset] to an owner without a record, of any amount up
    to the balance (zero and negative amounts included) whose debit stays
    within [int]: it returns the stored owner, the source ends at the
    balance minus the amount, the destination gets a record holding the
    amount, and the supply of the kind is conserved. *)
Theorem X14_TransferAsset_to_new_owner (w : store) id A B n a :
  outcome (Basic.ReadAsset id A) w = Ok a ->
  outcome (Basic.AssetExists id B) w = Ok false ->
  n <= Amount a -> GoInt.is_int (Amount a - n) ->
  outcome (Basic.TransferAsset id A B n) w = Ok (Owner a)
  /\ outcome (Basic.ReadAsset id A)
       (commit (Basic.TransferAsset id A B n) w)
     = Ok (mkAsset (ID a) (Owner a) (Amount a - n))
  /\ outcome (Basic.ReadAsset id B)
       (commit (Basic.TransferAsset id A B n) w) = Ok (mkAsset id B n)
  /\ supply id (commit (Basic.TransferAsset id A B n) w) = supply id w.
Proof.
  intros HA HB Hn Hint.
  destruct (BasicFacts.ReadAsset_Ok _ _ _ _ HA) as (kA & HkA & HwA).
  destruct (absent_lookup _ _ _ HB) as (kB & HkB & HwB).
  assert (Hne : kB <> kA) by congruence.
  unfold outcome, commit.
  rewrite (TransferAsset_invoke _ _ _ _ _ _ _ _ HkA HkB HwA) by lia.
  simpl. unfold GoInt.sub. rewrite (GoIntFacts.wrap_id _ Hint).
  split; [reflexivity|]. unfold invoke.
  rewrite (BasicFacts.ReadAsset_run _ _ _ _ _ HkA), lookup_insert_eq.
  rewrite (BasicFacts.ReadAsset_run _ _ _ _ _ HkB).
  rewrite lookup_insert_ne by congruence. rewrite lookup_insert_eq.
  split; [reflexivity|]. split; [reflexivity|].
  rewrite !supply_insert, lookup_insert_ne, HwA, HwB by exact Hne.
  rewrite (share_own id A kA a HkA).
  rewrite (share_own id A kA (mkAsset (ID a) (Owner a) (Amount a - n)) HkA).
  rewrite (share_own id B kB (mkAsset id B n) HkB). simpl. lia.
Qed.

Lemma X14_TransferAsset_to_new_owner_witness :
  outcome (Basic.TransferAsset "gem" "seo" "team3" (-10)) genesis = Ok "seo"
  /\ outcome (Basic.ReadAsset "gem" "seo")
       (commit (Basic.TransferAsset "gem" "seo" "team3" (-10)) genesis)
     = Ok (mkAsset "gem" "seo" (3000 - -10))
  /\ outcome (Basic.ReadAsset "gem" "team3")
       (commit (Basic.TransferAsset "gem" "seo" "team3" (-10)) genesis)
     = Ok (mkAsset "gem" "team3" (-10))
  /\ supply "gem"
       (commit (Basic.TransferAsset "gem" "seo" "team3" (-10)) genesis)
     = supply "gem" genesis.
Proof.
  apply (X14_TransferAsset_to_new_owner genesis "gem" "seo" "team3" (-10)
           (mkAsset "gem" "seo" 3000)).
  - vm_compute. reflexivity.
  - vm_compute. reflexivity.
  - simpl. lia.
  - simpl. unfold GoInt.is_int, GoInt.min_int, GoInt.max_int. lia.
Defined.



(** X16.  The conversion for a user other than the collector, with an
    amount the user holds and credits that fit in [int]: the user's gem
    balance drops by the amount, the collector's gem balance and the user's
    exp balance grow by it (a missing record counts as balance 0 and is
    created), the gem supply is unchanged and the exp supply grows by the
    amount. *)
Theorem X16_convert_other_user (w : store) user n a :
  outcome (Part000.ReadAsset "gem" user) w = Ok a ->
  user <> "Distrib" ->
  0 < n <= Amount a -> Amount a <= GoInt.max_int ->
  GoInt.is_int (balance w "gem" "Distrib" + n) ->
  GoInt.is_int (balance w "exp" user + n) ->
  outcome (Part000.TransferGemToDistrib user n) w = Ok tt
  /\ balance (commit (Part000.TransferGemToDistrib user n) w) "gem" user
     = Amount a - n
  /\ balance (commit (Part000.TransferGemToDistrib user n) w) "gem" "Distrib"
     = balance w "gem" "Distrib" + n
  /\ balance (commit (Part000.TransferGemToDistrib user n) w) "exp" user
     = balance w "exp" user + n
  /\ supply "gem" (commit (Part000.TransferGemToDistrib user n) w)
     = supply "gem" w
  /\ supply "exp" (commit (Part000.TransferGemToDistrib user n) w)
     = supply "exp" w + n.
Proof.
  intros HU Hne Hn Hm Hd He.
  pose proof Part000Facts.distribGemKey_eq as HkD.
  apply BasicFacts.ReadAsset_Ok in HU as (kU & HkU & HwU).
  destruct (Part000Facts.exp_key _ _ HkU) as (kE & HkE & HEU & HED).
  assert (HUD : kU <> distribGemKey).
  { intros ->. destruct (CreateCompositeKey_inj _ _ _ _ _ HkU HkD). auto. }
  rewrite (balance_lookup w "gem" "Distrib" distribGemKey HkD) in Hd.
  rewrite (balance_lookup w "exp" user kE HkE) in He.
  rewrite (balance_lookup w "gem" "Distrib" distribGemKey HkD).
  rewrite (balance_lookup w "exp" user kE HkE).
  unfold outcome, commit.
  rewrite (TransferGemToDistrib_invoke _ _ _ _ _ _ HkU HkE HwU) by lia.
  simpl fst. simpl snd.
  set (dg := default (mkAsset "gem" "Distrib" 0) (w !! distribGemKey)) in *.
  set (ue := default (mkAsset "exp" user 0) (w !! kE)) in *.
  assert (Hdg : Amount (credit dg n)
                = match w !! distribGemKey with
                  | Some x => Amount x | None => 0 end + n).
  { unfold credit, GoInt.add. simpl. subst dg.
    destruct (w !! distribGemKey); simpl in *; apply GoIntFacts.wrap_id, Hd. }
  assert (Hue : Amount (credit ue n)
                = match w !! kE with Some x => Amount x | None => 0 end + n).
  { unfold credit, GoInt.add. simpl. subst ue.
    destruct (w !! kE); simpl in *; apply GoIntFacts.wrap_id, He. }
  assert (Hug : Amount (debit a n) = Amount a - n).
  { unfold debit, GoInt.sub. simpl. apply GoIntFacts.wrap_id.
    unfold GoInt.is_int, GoInt.min_int, GoInt.max_int in *. lia. }
  split; [reflexivity|].
  rewrite (balance_lookup _ "gem" user kU HkU).
  rewrite (balance_lookup _ "gem" "Distrib" distribGemKey HkD).
  rewrite (balance_lookup _ "exp" user kE HkE).
  rewrite lookup_insert_eq.
  rewrite (lookup_insert_ne _ kE distribGemKey) by exact HED.
  rewrite lookup_insert_eq.
  rewrite (lookup_insert_ne _ kE kU) by exact HEU.
  rewrite (lookup_insert_ne _ distribGemKey kU) by congruence.
  rewrite lookup_insert_eq.
  repeat (split; [assumption|]).
  rewrite !supply_insert.
  rewrite !(lookup_insert_ne _ distribGemKey kE) by congruence.
  rewrite !(lookup_insert_ne _ kU kE) by congruence.
  rewrite !(lookup_insert_ne _ kU distribGemKey) by exact HUD.
  rewrite HwU.
  assert (SU : forall x, share "gem" kU x = Amount x)
    by (intros x; exact (share_own "gem" user kU x HkU)).
  assert (SD : forall x, share "gem" distribGemKey x = Amount x)
    by (intros x; exact (share_own "gem" "Distrib" distribGemKey x HkD)).
  assert (SE : forall x, share "exp" kE x = Amount x)
    by (intros x; exact (share_own "exp" user kE x HkE)).
  assert (SE0 : forall x, share "gem" kE x = 0)
    by (intros x; exact (share_gem_of_exp user kE x HkE)).
  assert (SU0 : forall x, share "exp" kU x = 0)
    by (intros x; exact (share_exp_of_gem user kU x HkU)).
  assert (SD0 : forall x, share "exp" distribGemKey x = 0)
    by (intros x; exact (share_exp_of_gem "Distrib" distribGemKey x HkD)).
  rewrite (SU a), (SU (debit a n)), (SD (credit dg n)), (SE (credit ue n)),
          (SE0 (credit ue n)), (SU0 a), (SU0 (debit a n)),
          (SD0 (credit dg n)).
  rewrite Hdg, Hue, Hug.
  destruct (w !! distribGemKey) as [x|]; destruct (w !! kE) as [y|];
    rewrite ?(SD x), ?(SD0 x), ?(SE y), ?(SE0 y); split; lia.
Qed.

Lemma X16_convert_other_user_witness :
  outcome (Part000.TransferGemToDistrib "Team2" 10) genesis000 = Ok tt
  /\ balance (commit (Part000.TransferGemToDistrib "Team2" 10) genesis000)
       "gem" "Team2" = 15 - 10
  /\ balance (commit (Part000.TransferGemToDistrib "Team2" 10) genesis000)
       "gem" "Distrib" = balance genesis000 "gem" "Distrib" + 10
  /\ balance (commit (Part000.TransferGemToDistrib "Team2" 10) genesis000)
       "exp" "Team2" = balance genesis000 "exp" "Team2" + 10
  /\ supply "gem" (commit (Part000.TransferGemToDistrib "Team2" 10) genesis000)
     = supply "gem" genesis000
  /\ supply "exp" (commit (Part000.TransferGemToDistrib "Team2" 10) genesis000)
     = supply "exp" genesis000 + 10.
Proof.
  assert (HD : balance genesis000 "gem" "Distrib" = 0)
    by (vm_compute; reflexivity).
  assert (HE : balance genesis000 "exp" "Team2" = 15)
    by (vm_compute; reflexivity).
  apply (X16_convert_other_user genesis000 "Team2" 10
           (mkAsset "gem" "Team2" 15)).
  - vm_compute. reflexivity.
  - discriminate.
  - simpl. lia.
  - simpl. unfold GoInt.max_int. lia.
  - rewrite HD. unfold GoInt.is_int, GoInt.min_int, GoInt.max_int. lia.
  - rewrite HE. unfold GoInt.is_int, GoInt.min_int, GoInt.max_int. lia.
Defined.

(** ** Seeding *)

Lemma putAssets_run (l : list Asset) : forall w ws,
  Forall (fun a => exists k,
            CreateCompositeKey "Asset" [ID a; Owner a] = Ok k) l ->
  Basic.putAssets l w ws = (Ok tt, put_all l ws).
Proof.
  induction l as [|a l IH]; intros w ws Hl; [reflexivity|].
  apply Forall_cons in Hl as [[k Hk] Hl].
  simpl. tx_unfold. unfold put_all. simpl. unfold key_of. rewrite Hk.
  rewrite (put_nonempty k) by (eapply CreateCompositeKey_nonempty, Hk).
  apply IH, Hl.
Qed.

Lemma put_all_union (l : list Asset) : forall ws w : store,
  put_all l ws ∪ w = put_all l (ws ∪ w).
Proof.
  induction l as [|a l IH]; intros ws w; [reflexivity|].
  unfold put_all in *. simpl. rewrite IH, insert_union_l. reflexivity.
Qed.

Lemma assets_form_keys :
  Forall (fun a => exists k,
            CreateCompositeKey "Asset" [ID a; Owner a] = Ok k) Basic.assets.
Proof. repeat constructor; eexists; vm_compute; reflexivity. Qed.

Lemma InitLedger_invoke (w : store) :
  invoke Basic.InitLedger w = (Ok tt, genesis ∪ w).
Proof.
  assert (Hg : genesis = put_all Basic.assets ∅).
  { unfold genesis, commit, invoke, Basic.InitLedger.
    rewrite (putAssets_run _ _ _ assets_form_keys). simpl.
    apply (right_id_L ∅ (∪)). }
  unfold invoke, Basic.InitLedger.
  rewrite (putAssets_run _ _ _ assets_form_keys), Hg. reflexivity.
Qed.

(** X17.  [InitLedger] on any ledger: it succeeds, the six seeded records
    replace whatever was stored under their keys and every other entry
    stays, each seeded pair reads back as its literal, and running it a
    second time changes nothing. *)
Theorem X17_InitLedger_on_any_ledger (w : store) :
  invoke Basic.InitLedger w = (Ok tt, genesis ∪ w)
  /\ Forall (fun a => outcome (Basic.ReadAsset (ID a) (Owner a))
                       (commit Basic.InitLedger w) = Ok a) Basic.assets
  /\ commit Basic.InitLedger (commit Basic.InitLedger w)
     = commit Basic.InitLedger w.
Proof.
  split; [apply InitLedger_invoke|]. unfold commit.
  rewrite !InitLedger_invoke. simpl. split.
  - repeat constructor; simpl;
      match goal with
      | |- outcome (Basic.ReadAsset ?i ?o) _ = Ok ?a =>
          rewrite (ReadAsset_outcome i o (key_of a))
            by (vm_compute; reflexivity);
          rewrite (lookup_union_Some_l genesis w _ a)
            by (vm_compute; reflexivity);
          reflexivity
      end.
  - rewrite (assoc_L (∪)), (idemp (∪) genesis). reflexivity.
Qed.

(** ** Records and their keys *)

Lemma keyed_insert (w : store) id owner k v :
  keyed w -> CreateCompositeKey "Asset" [id; owner] = Ok k ->
  ID v = id -> Owner v = owner -> keyed (<[k := v]> w).
Proof.
  intros Hw Hk Hi Ho id' owner' a Hread.
  destruct (decide ((id', owner') = (id, owner))) as [[= -> ->]|Hne].
  - rewrite (ReadAsset_outcome _ _ _ _ Hk), lookup_insert_eq in Hread.
    injection Hread as <-. auto.
  - rewrite (ReadAsset_insert_other _ _ _ _ _ _ _ Hk Hne) in Hread.
    exact (Hw _ _ _ Hread).
Qed.

Lemma keyed_lookup (w : store) id owner k a :
  keyed w -> CreateCompositeKey "Asset" [id; owner] = Ok k ->
  w !! k = Some a -> ID a = id /\ Owner a = owner.
Proof.
  intros Hw Hk Ha. apply Hw. rewrite (ReadAsset_outcome _ _ _ _ Hk), Ha.
  reflexivity.
Qed.

Lemma keyed_exec (o : operation) (w : store) : keyed w -> keyed (exec o w).
Proof.
  intros Hw.
  destruct o as [id amount owner | id owner amount
                | id owner newOwner amount | user n]; simpl.
  - destruct (CreateCompositeKey "Asset" [id; owner]) as [k|e] eqn:Hk;
      [|rewrite (CreateAsset_no_key _ _ _ _ _ Hk); exact Hw].
    unfold commit. rewrite (CreateAsset_invoke _ _ _ _ _ Hk).
    destruct (w !! k); [exact Hw|]. simpl.
    apply (keyed_insert _ _ _ _ _ Hw Hk); reflexivity.
  - intros id' owner' a.
    rewrite (proj1 (UpdateAsset_keeps_reads w id owner amount id' owner')).
    apply Hw.
  - destruct (CreateCompositeKey "Asset" [id; owner]) as [k|e] eqn:Hk;
      [|rewrite (TransferAsset_no_key _ _ _ _ _ _ Hk); exact Hw].
    unfold commit, invoke.
    rewrite (BasicFacts.TransferAsset_run _ _ _ _ _ _ _ Hk).
    destruct (w !! k) as [a|] eqn:Ha; [|exact Hw].
    destruct (Amount a <? amount); [exact Hw|].
    destruct (CreateCompositeKey "Asset" [id; newOwner]) as [kN|e] eqn:HkN;
      [|exact Hw].
    simpl. rewrite committed_2.
    destruct (keyed_lookup _ _ _ _ _ Hw Hk Ha) as [Hi Ho].
    apply (keyed_insert _ id owner k); [|exact Hk|exact Hi|exact Ho].
    apply (keyed_insert _ id newOwner kN); [exact Hw|exact HkN| |];
      reflexivity.
  - destruct (CreateCompositeKey "Asset" ["gem"; user]) as [kU|e] eqn:HkU;
      [|rewrite (TransferGemToDistrib_no_key _ _ _ _ HkU); exact Hw].
    destruct (Part000Facts.exp_key _ _ HkU) as (kE & HkE & _).
    pose proof Part000Facts.distribGemKey_eq as HkD.
    unfold commit, invoke.
    rewrite (Part000Facts.TransferGemToDistrib_run _ _ _ _ _ _ HkU HkE).
    destruct (n <=? 0); [exact Hw|].
    destruct (w !! kU) as [a|] eqn:Ha; [|exact Hw].
    destruct (Amount a <? n); [exact Hw|].
    cbv beta iota zeta. rewrite committed_3. simpl snd.
    destruct (keyed_lookup _ _ _ _ _ Hw HkU Ha) as [Hi Ho].
    apply (keyed_insert _ "exp" user kE); [|exact HkE| |].
    + apply (keyed_insert _ "gem" "Distrib" distribGemKey); [|exact HkD| |].
      * apply (keyed_insert _ "gem" user kU); assumption.
      * destruct (w !! distribGemKey) as [d|] eqn:Hd; [|reflexivity].
        apply (keyed_lookup _ _ _ _ _ Hw HkD Hd).
      * destruct (w !! distribGemKey) as [d|] eqn:Hd; [|reflexivity].
        apply (keyed_lookup _ _ _ _ _ Hw HkD Hd).
    + destruct (w !! kE) as [x|] eqn:Hx; [|reflexivity].
      apply (keyed_lookup _ _ _ _ _ Hw HkE Hx).
    + destruct (w !! kE) as [x|] eqn:Hx; [|reflexivity].
      apply (keyed_lookup _ _ _ _ _ Hw HkE Hx).
Qed.

Lemma keyed_empty : keyed ∅.
Proof.
  intros id owner a H. apply BasicFacts.ReadAsset_Ok in H as (k & _ & H).
  rewrite lookup_empty in H. discriminate.
Qed.



(** X19.  On every ledger reached from the empty one by the four
    operations, [ReadAsset(Kind, Owner)] returns only records whose [ID]
    is Kind and whose [Owner] is Owner. *)
Theorem X19_reachable_ledgers_are_keyed (w : store) id owner a :
  reachable w ->
  outcome (Basic.ReadAsset id owner) w = Ok a ->
  ID a = id /\ Owner a = owner.
Proof.
  intros Hr. revert id owner a. change (keyed w).
  induction Hr as [|o w Hr IH Hint]; [apply keyed_empty|].
  apply keyed_exec, IH.
Qed.

Lemma X19_reachable_ledgers_are_keyed_witness :
  ID (mkAsset "gem" "bob" 5) = "gem" /\ Owner (mkAsset "gem" "bob" 5) = "bob".
Proof.
  apply (X19_reachable_ledgers_are_keyed brimful "gem" "bob").
  - repeat (apply reachable_exec;
            [|unfold GoInt.is_int, GoInt.min_int, GoInt.max_int; simpl; lia]).
    apply reachable_empty.
  - vm_compute. reflexivity.
Defined.

(** ** The variant *)

Lemma composite_only_insert (w : store) k v :
  composite_only w = true -> starts_nul k = true ->
  composite_only (<[k := v]> w) = true.
Proof.
  rewrite !composite_only_spec. intros Hw Hk k' a.
  rewrite lookup_insert. destruct (decide (k = k')) as [<-|]; [auto|apply Hw].
Qed.

Lemma Part000_InitLedger_invoke (w : store) :
  invoke Part000.InitLedger w = (Ok tt, genesis000 ∪ w).
Proof.
  assert (Hk : Forall (fun a => exists k,
                         CreateCompositeKey "Asset" [ID a; Owner a] = Ok k)
                 Part000.assets)
    by (repeat constructor; eexists; vm_compute; reflexivity).
  assert (Hg : genesis000 = put_all Part000.assets ∅).
  { unfold genesis000, commit, invoke, Part000.InitLedger.
    change Part000.putAssets with Basic.putAssets.
    rewrite (putAssets_run _ _ _ Hk). simpl. apply (right_id_L ∅ (∪)). }
  unfold invoke, Part000.InitLedger.
  change Part000.putAssets with Basic.putAssets.
  rewrite (putAssets_run _ _ _ Hk), Hg. reflexivity.
Qed.

Lemma composite_only_union (w1 w2 : store) :
  composite_only w1 = true -> composite_only w2 = true ->
  composite_only (w1 ∪ w2) = true.
Proof.
  rewrite !composite_only_spec. intros H1 H2 k a Hk.
  apply lookup_union_Some_raw in Hk as [Hk|[_ Hk]]; eauto.
Qed.

(** X20.  In the variant every [PutState] of [InitLedger], [CreateAsset]
    and [TransferGemToDistrib] goes to a composite key: a ledger that holds
    composite keys only still does after any of them, whatever the
    arguments. *)
Theorem X20_variant_puts_composite_keys
  (w : store) id amount owner user n :
  composite_only w = true ->
  composite_only (commit Part000.InitLedger w) = true
  /\ composite_only (commit (Part000.CreateAsset id amount owner) w) = true
  /\ composite_only (commit (Part000.TransferGemToDistrib user n) w) = true.
Proof.
  intros Hw. split; [|split].
  - unfold commit. rewrite Part000_InitLedger_invoke. simpl.
    apply composite_only_union; [vm_compute; reflexivity|exact Hw].
  - unfold commit, invoke. rewrite Part000_CreateAsset_eq.
    destruct (CreateCompositeKey "Asset" [id; owner]) as [k|e] eqn:Hk.
    + rewrite (BasicFacts.CreateAsset_run _ _ _ _ _ _ Hk).
      destruct (w !! k); [exact Hw|]. simpl. rewrite committed_1.
      apply composite_only_insert; [exact Hw|].
      eapply CreateCompositeKey_starts_nul, Hk.
    + unfold Basic.CreateAsset. tx_unfold. rewrite Hk. exact Hw.
  - destruct (CreateCompositeKey "Asset" ["gem"; user]) as [kU|e] eqn:HkU;
      [|rewrite (TransferGemToDistrib_no_key _ _ _ _ HkU); exact Hw].
    destruct (Part000Facts.exp_key _ _ HkU) as (kE & HkE & _).
    unfold commit, invoke.
    rewrite (Part000Facts.TransferGemToDistrib_run _ _ _ _ _ _ HkU HkE).
    destruct (n <=? 0); [exact Hw|].
    destruct (w !! kU) as [a|]; [|exact Hw].
    destruct (Amount a <? n); [exact Hw|].
    cbv beta iota zeta. rewrite committed_3. simpl snd.
    repeat apply composite_only_insert; try exact Hw.
    + eapply CreateCompositeKey_starts_nul, HkU.
    + reflexivity.
    + eapply CreateCompositeKey_starts_nul, HkE.
Qed.

Lemma X20_variant_puts_composite_keys_witness :
  composite_only (commit Part000.InitLedger genesis000) = true
  /\ composite_only (commit (Part000.CreateAsset "gem" 7 "Team3") genesis000)
     = true
  /\ composite_only
       (commit (Part000.TransferGemToDistrib "Team2" 10) genesis000) = true.
Proof.
  apply (X20_variant_puts_composite_keys genesis000 "gem" 7 "Team3" "Team2" 10).
  vm_compute. reflexivity.
Defined.

